(** * Natours: the request pipeline assembled by [app.js]

    [app.js] builds one Express application: it registers, in a fixed order,
    a list of middleware layers and routes, and hands every request to that
    list.  This development embeds

    - the list itself ([App.app]), layer by layer as the source registers it,
      with the options the source passes to each middleware;
    - the way Express 4 walks such a list ([App.handle]): layers are tried
      in registration order, a layer runs when its path (and method) match,
      [next()] moves on, [next(err)] skips to the error-handling middleware,
      and a handler that answers ends the walk;
    - the documented behaviour of the packages whose middleware the source
      mounts (serve-static and body-parser as shipped in express 4.18, cors,
      express-rate-limit 6, express-mongo-sanitize 2, xss-clean, hpp,
      cookie-parser), as far as the options in [app.js] select it;
    - the modules of the repository that [app.js] only requires
      (routers, controllers, [AppError]) as collaborators of the pipeline.

    The properties proved afterwards are about this pipeline: registration
    order, the raw-body route of the payment webhook, rate limiting, body
    size limits, sanitisation, the not-found fallback. *)

From Stdlib Require Import ZArith String Ascii List Bool Lia.
From Stdlib.Strings Require Import Byte.
From stdpp Require Import gmap strings list pretty.

Open Scope string_scope.

(** ** HTTP requests as they arrive at the application *)

Inductive Method := GET | HEAD | POST | PUT | PATCH | DELETE | OPTIONS.

Definition Method_eqb (a b : Method) : bool :=
  match a, b with
  | GET, GET | HEAD, HEAD | POST, POST | PUT, PUT
  | PATCH, PATCH | DELETE, DELETE | OPTIONS, OPTIONS => true
  | _, _ => false
  end.

(** Structured data: what [JSON.parse] and [qs.parse] build.  An object is
    the list of its own enumerable properties.  A number is held as the
    string that JavaScript prints for it (["NaN"], ["Infinity"] and
    ["-Infinity"] for the numbers that are not finite).  Strings hold UTF-8. *)
#[local] Unset Elimination Schemes.
Inductive JValue :=
| JUndefined
| JNull
| JBool (b : bool)
| JNum (printed : string)
| JStr (s : string)
| JArr (items : list JValue)
| JObj (props : list (string * JValue)).
#[local] Set Elimination Schemes.

(** [Content-Encoding] of the request body. *)
Inductive Encoding := identity | deflate | gzip | other_encoding (name : string).

Record Request := {
  method : Method;
  originalUrl : string;            (* req.originalUrl *)
  path : string;                   (* req.path, the pathname of the URL *)
  query : JValue;                  (* req.query as Express's query parser set it *)
  ip : string;                     (* req.ip; 'trust proxy' is enabled *)
  contentType : option string;     (* media type of Content-Type, lower case, no parameters *)
  charset : option string;         (* the charset parameter of Content-Type, lower case *)
  contentEncoding : Encoding;
  cookieHeader : option string;
  rawBody : option (list byte);    (* the bytes on the wire; None: no body announced *)
}.

(** ** The request context threaded through the stages *)

(** [req.body]: nothing yet, a [Buffer], or a parsed value. *)
Inductive Body :=
| BUndefined
| BBuffer (bytes : list byte)
| BData (v : JValue).

(** A JavaScript value stored in an annotation of the request. *)
Inductive Annotation :=
| Undefined
| StringValue (s : string)
| FunctionRef (name : string).

Record Ctx := {
  req : Request;
  body : Body;                                   (* req.body *)
  body_parsed : bool;                            (* req._body *)
  cookies : option (list (string * string));     (* req.cookies *)
  cquery : JValue;                               (* req.query, as later stages rewrite it *)
  params : JValue;                               (* req.params *)
  queryPolluted : option (list (string * JValue));
  bodyPolluted : option (list (string * JValue));
  requestedAt : Annotation;                      (* req.requestedAt *)
  resHeaders : list (string * string);           (* headers set on res so far *)
}.

Definition arrive (r : Request) : Ctx :=
  {| req := r; body := BUndefined; body_parsed := false; cookies := None;
     cquery := query r; params := JObj []; queryPolluted := None;
     bodyPolluted := None; requestedAt := Undefined; resHeaders := [] |}.

Definition set_body (b : Body) (p : bool) (c : Ctx) : Ctx :=
  {| req := req c; body := b; body_parsed := p; cookies := cookies c;
     cquery := cquery c; params := params c; queryPolluted := queryPolluted c;
     bodyPolluted := bodyPolluted c; requestedAt := requestedAt c;
     resHeaders := resHeaders c |}.

Definition set_cookies (k : list (string * string)) (c : Ctx) : Ctx :=
  {| req := req c; body := body c; body_parsed := body_parsed c; cookies := Some k;
     cquery := cquery c; params := params c; queryPolluted := queryPolluted c;
     bodyPolluted := bodyPolluted c; requestedAt := requestedAt c;
     resHeaders := resHeaders c |}.

Definition set_inputs (b : Body) (q p : JValue) (c : Ctx) : Ctx :=
  {| req := req c; body := b; body_parsed := body_parsed c; cookies := cookies c;
     cquery := q; params := p; queryPolluted := queryPolluted c;
     bodyPolluted := bodyPolluted c; requestedAt := requestedAt c;
     resHeaders := resHeaders c |}.

Definition set_polluted (q : JValue) (qp : option (list (string * JValue)))
    (b : Body) (bp : option (list (string * JValue))) (c : Ctx) : Ctx :=
  {| req := req c; body := b; body_parsed := body_parsed c; cookies := cookies c;
     cquery := q; params := params c; queryPolluted := qp;
     bodyPolluted := bp; requestedAt := requestedAt c;
     resHeaders := resHeaders c |}.

Definition set_requestedAt (a : Annotation) (c : Ctx) : Ctx :=
  {| req := req c; body := body c; body_parsed := body_parsed c; cookies := cookies c;
     cquery := cquery c; params := params c; queryPolluted := queryPolluted c;
     bodyPolluted := bodyPolluted c; requestedAt := a;
     resHeaders := resHeaders c |}.

Definition add_headers (hs : list (string * string)) (c : Ctx) : Ctx :=
  {| req := req c; body := body c; body_parsed := body_parsed c; cookies := cookies c;
     cquery := cquery c; params := params c; queryPolluted := queryPolluted c;
     bodyPolluted := bodyPolluted c; requestedAt := requestedAt c;
     resHeaders := resHeaders c ++ hs |}.

(** ** Responses and errors *)

Inductive Payload :=
| PEmpty
| PText (s : string)
| PFile (bytes : list byte)
| PView (rendered : string).

Record Response := { status : Z; payload : Payload }.

(** What travels through [next(err)].  [AppError] is the class of
    [utils/appError], applied to the arguments the source gives it;
    [HttpError] is what body-parser raises (status code and type);
    [Thrown] is any other value a collaborator passes on. *)
Inductive Err :=
| AppError (message : string) (statusCode : Z)
| HttpError (statusCode : Z) (type : string)
| Thrown (what : string).

(** ** Path matching, as Express does it with its default settings
    (routing is case-insensitive and not strict) *)

Module Express.

Definition lower_ascii (a : ascii) : ascii :=
  let n := nat_of_ascii a in
  if (65 <=? n)%nat && (n <=? 90)%nat then ascii_of_nat (n + 32) else a.

Fixpoint lower (s : string) : string :=
  match s with
  | EmptyString => EmptyString
  | String a r => String (lower_ascii a) (lower r)
  end.

(** Does [s] start with [p]?  Returns what follows. *)
Fixpoint strip_prefix (p s : string) : option string :=
  match p, s with
  | EmptyString, _ => Some s
  | String a p', String b s' => if Ascii.eqb a b then strip_prefix p' s' else None
  | String _ _, EmptyString => None
  end.

(** [app.use(mount, fn)]: the layer matches the paths at or below [mount]. *)
Definition use_match (mount p : string) : bool :=
  if String.eqb mount "/" then true
  else match strip_prefix (lower mount) (lower p) with
       | Some EmptyString => true
       | Some (String "/" _) => true
       | _ => false
       end.

(** [app.METHOD(pattern, fn)]: the whole path has to match; ['*'] matches
    every path, a trailing slash is accepted. *)
Definition verb_match (pattern p : string) : bool :=
  if String.eqb pattern "*" then true
  else match strip_prefix (lower pattern) (lower p) with
       | Some EmptyString => true
       | Some (String "/" EmptyString) => true
       | _ => false
       end.

End Express.

(** ** What the pipeline is given: the process environment and the modules
    that [app.js] requires but does not define

    Route handlers receive the request context and return a response or an
    error; a router may also find no route for the request, which hands the
    request on unchanged.

    [public_send] is what serve-static's [send] makes of a GET or HEAD
    request against the directory [public/]: the response it writes (the
    file with status 200, its headers alone for HEAD, 304 for a copy that
    is still fresh, 206 for a range, a redirect 301 onto a directory), or
    [None] when it writes none and serve-static hands the request on (no
    such file, a dotfile, a precondition or range that fails).  The file
    system is taken not to fail. *)

Inductive RouterName := viewRouter | tourRouter | userRouter | reviewRouter | bookingRouter.

Record Env := {
  NODE_ENV : option string;                          (* process.env.NODE_ENV *)
  public_send : Request -> option Response;          (* send, on the directory public/ *)
  zlib_inflate : Encoding -> list byte -> option (list byte);
  iconv_decode : string -> option (list byte -> string);   (* iconv-lite's decoders *)
  JSON_parse : string -> option JValue;              (* JSON.parse; None: a SyntaxError *)
  qs_parse : string -> option JValue;                (* qs.parse; None: too many parameters *)
  cookie_parse : string -> list (string * string);
  helmet_headers : list (string * list string) -> list (string * string);
  bookingController_webhookCheckout : Ctx -> Response + Err;
  routed : RouterName -> Ctx -> option (Response + Err);
  errorController : Err -> Ctx -> Response;          (* what app.js calls globalErrorHandler *)
}.

(** What a handler does with the request: [next()], [next(err)], or answer. *)
Inductive Step :=
| Next (c : Ctx)
| NextErr (e : Err) (c : Ctx)
| End (r : Response).

(** ** serve-static *)
Module ServeStatic.

(** Other methods than GET and HEAD are handed on at once ([fallthrough]
    is on by default). *)
Definition serve (E : Env) (c : Ctx) : Step :=
  match method (req c) with
  | GET | HEAD =>
      match public_send E (req c) with
      | Some r => End r
      | None => Next c
      end
  | _ => Next c
  end.

End ServeStatic.

(** ** cors, with its default options *)
Module Cors.

Definition optionsSuccessStatus : Z := 204.

Definition cors (c : Ctx) : Step :=
  match method (req c) with
  | OPTIONS => End {| status := optionsSuccessStatus; payload := PEmpty |}
  | _ => Next (add_headers [("Access-Control-Allow-Origin", "*")] c)
  end.

End Cors.

(** ** express-rate-limit with its memory store

    The store counts hits per key and is emptied by a timer every
    [windowMs]; here the timer is read off the arrival time of the request:
    a hit that arrives at or after [resetTime] finds the store emptied and
    [resetTime] moved to the end of the window the hit falls in. *)
Module RateLimit.

Record Options := { max : nat; windowMs : Z; message : string }.

Record Store := { hits : gmap string nat; resetTime : Z }.

Definition statusCode : Z := 429.

Definition resetAll (o : Options) (now : Z) (s : Store) : Store :=
  {| hits := ∅;
     resetTime := resetTime s + windowMs o * ((now - resetTime s) / windowMs o + 1) |}.

Definition expire (o : Options) (now : Z) (s : Store) : Store :=
  if (resetTime s <=? now)%Z then resetAll o now s else s.

Definition totalHits (key : string) (s : Store) : nat := default 0 (hits s !! key).

Definition increment (key : string) (s : Store) : Store :=
  {| hits := <[key := totalHits key s + 1]> (hits s); resetTime := resetTime s |}.

Definition rateLimit (o : Options) (now : Z) (s : Store) (c : Ctx) : Store * Step :=
  let s' := increment (ip (req c)) (expire o now s) in
  if (max o <? totalHits (ip (req c)) s')%nat
  then (s', End {| status := statusCode; payload := PText (message o) |})
  else (s', Next c).

End RateLimit.

(** ** body-parser (express.raw, express.json, express.urlencoded) *)
Module BodyParser.

(** bytes.parse of ['<n>kb'] *)
Definition kb (n : Z) : Z := (n * 1024)%Z.

Definition default_limit : Z := kb 100.

Definition empty_object : Body := BData (JObj []).

(** [getCharset(req) || 'utf-8'] *)
Definition getCharset (r : Request) : string :=
  match charset r with
  | Some (String a cs) => String a cs
  | _ => "utf-8"
  end.

(** Read the request stream (raw-body): undo the content encoding, enforce
    the limit, decode.  [decoder = None]: iconv-lite has no decoder for the
    charset.  Without content encoding the announced length is checked
    before a decoder is looked for; with one, the length is only known
    once the body is inflated. *)
Definition read {A} (E : Env) (limit : Z) (decoder : option (list byte -> A))
    (r : Request) (wire : list byte) : Err + A :=
  match contentEncoding r with
  | other_encoding _ => inl (HttpError 415 "encoding.unsupported")
  | identity =>
      if (limit <? Z.of_nat (length wire))%Z
      then inl (HttpError 413 "entity.too.large")
      else match decoder with
           | None => inl (HttpError 415 "charset.unsupported")
           | Some decode => inr (decode wire)
           end
  | enc =>
      match decoder with
      | None => inl (HttpError 415 "charset.unsupported")
      | Some decode =>
          match zlib_inflate E enc wire with
          | None => inl (HttpError 400 EmptyString)   (* zlib's error: status 400, no type *)
          | Some bytes =>
              if (limit <? Z.of_nat (length bytes))%Z
              then inl (HttpError 413 "entity.too.large")
              else inr (decode bytes)
          end
      end
  end.

Definition type_is (r : Request) (type : string) : bool :=
  match contentType r with
  | Some t => String.eqb t type
  | None => false
  end.

(** The frame shared by the three parsers.  [accept] is the parser's test
    of the charset: an error, or the decoder for the body.  [read] flags
    the request as parsed ([req._body]) before it reads, so the flag is
    set on every path through [read], errors included. *)
Definition parser {A} (E : Env) (type : string) (limit : Z)
    (accept : Request -> Err + option (list byte -> A))
    (parse : A -> Err + Body) (c : Ctx) : Step :=
  if body_parsed c then Next c
  else
    let c0 := match body c with BUndefined => set_body empty_object false c | _ => c end in
    match rawBody (req c) with
    | None => Next c0
    | Some wire =>
        if negb (type_is (req c) type) then Next c0
        else match accept (req c) with
             | inl e => NextErr e c0
             | inr decoder =>
                 match read E limit decoder (req c) wire with
                 | inl e => NextErr e (set_body (body c0) true c0)
                 | inr content =>
                     match parse content with
                     | inl e => NextErr e (set_body (body c0) true c0)
                     | inr b => Next (set_body b true c0)
                     end
                 end
             end
    end.

(** express.raw keeps the bytes. *)
Definition raw (E : Env) (type : string) : Ctx -> Step :=
  parser E type default_limit (fun _ => inr (Some (fun bytes => bytes)))
    (fun bytes => inr (BBuffer bytes)).

Definition unsupported_charset : Err := HttpError 415 "charset.unsupported".

Definition parse_failed : Err := HttpError 400 "entity.parse.failed".

(** express.json takes the charsets whose name starts with ['utf-']. *)
Definition accept_json (E : Env) (r : Request) : Err + option (list byte -> string) :=
  match Express.strip_prefix "utf-" (getCharset r) with
  | Some _ => inr (iconv_decode E (getCharset r))
  | None => inl unsupported_charset
  end.

(** The first character that is not a space, a tab, a line feed or a
    carriage return. *)
Fixpoint firstchar (t : string) : option ascii :=
  match t with
  | EmptyString => None
  | String a r =>
      if Ascii.eqb a " " || Ascii.eqb a "009" || Ascii.eqb a "010" || Ascii.eqb a "013"
      then firstchar r else Some a
  end.

(** [strict] is on by default: the text has to open an object or an array. *)
Definition strict (t : string) : bool :=
  match firstchar t with
  | Some a => Ascii.eqb a "{" || Ascii.eqb a "["
  | None => false
  end.

Definition parse_json (E : Env) (t : string) : Err + Body :=
  match t with
  | EmptyString => inr empty_object
  | _ =>
      if strict t
      then match JSON_parse E t with
           | Some v => inr (BData v)
           | None => inl parse_failed
           end
      else inl parse_failed
  end.

Definition json (E : Env) (limit : Z) : Ctx -> Step :=
  parser E "application/json" limit (accept_json E) (parse_json E).

(** express.urlencoded takes ['utf-8'] only. *)
Definition accept_urlencoded (E : Env) (r : Request) : Err + option (list byte -> string) :=
  if String.eqb (getCharset r) "utf-8"
  then inr (iconv_decode E "utf-8")
  else inl unsupported_charset.

Definition parse_urlencoded (E : Env) (t : string) : Err + Body :=
  match t with
  | EmptyString => inr empty_object
  | _ => match qs_parse E t with
         | Some v => inr (BData v)
         | None => inl (HttpError 413 "parameters.too.many")
         end
  end.

Definition urlencoded (E : Env) (limit : Z) : Ctx -> Step :=
  parser E "application/x-www-form-urlencoded" limit (accept_urlencoded E)
    (parse_urlencoded E).

End BodyParser.

(** ** cookie-parser *)
Module CookieParser.

Definition cookieParser (E : Env) (c : Ctx) : Step :=
  match cookies c with
  | Some _ => Next c
  | None =>
      Next (set_cookies (match cookieHeader (req c) with
                         | Some h => cookie_parse E h
                         | None => []
                         end) c)
  end.

End CookieParser.

(** ** express-mongo-sanitize, with its default options *)
Module MongoSanitize.

Definition starts_with_dollar (k : string) : bool :=
  match k with
  | String "$"%char _ => true
  | _ => false
  end.

Fixpoint has_dot (k : string) : bool :=
  match k with
  | EmptyString => false
  | String "."%char _ => true
  | String _ r => has_dot r
  end.

(** The package's test for a key to delete: [/^\$|\./]. *)
Definition TEST_REGEX (k : string) : bool := starts_with_dollar k || has_dot k.

(** Arrays are walked, objects lose the keys that test positive and are
    walked below the keys they keep; anything else is left alone. *)
Fixpoint sanitize (v : JValue) : JValue :=
  match v with
  | JArr items => JArr (map sanitize items)
  | JObj props =>
      JObj ((fix walk (l : list (string * JValue)) : list (string * JValue) :=
               match l with
               | [] => []
               | (k, x) :: r => if TEST_REGEX k then walk r else (k, sanitize x) :: walk r
               end) props)
  | _ => v
  end.

Definition sanitize_body (b : Body) : Body :=
  match b with
  | BData v => BData (sanitize v)
  | _ => b
  end.

(** [req.body], [req.params] and [req.query] are replaced by what is left
    of them ([req.headers] too, which the context does not carry). *)
Definition sanitize_request (c : Ctx) : Ctx :=
  set_inputs (sanitize_body (body c)) (sanitize (cquery c)) (sanitize (params c)) c.

Definition mongoSanitize (c : Ctx) : Step := Next (sanitize_request c).

End MongoSanitize.

(** ** xss-clean: [JSON.parse(inHTMLData(JSON.stringify(data)).trim())]

    The data is printed as JSON, every ['<'] of the text is replaced by
    ['&lt;'], and the text is parsed back.  A ['<'] can only stand in a
    string of the text, a name or a value, so the strings come back
    escaped; what JSON cannot print comes back as JSON prints it. *)
Module XssClean.

(** xss-filters' [inHTMLData] *)
Fixpoint inHTMLData (s : string) : string :=
  match s with
  | EmptyString => EmptyString
  | String "<"%char r => "&lt;" ++ inHTMLData r
  | String a r => String a (inHTMLData r)
  end.

(** [JSON.stringify] prints [null] for a number that is not finite. *)
Definition finite (n : string) : bool :=
  negb (String.eqb n "NaN" || String.eqb n "Infinity" || String.eqb n "-Infinity").

(** [JSON.parse] on a name that comes again: the later value takes the
    place of the earlier one. *)
Fixpoint define (k : string) (v : JValue) (props : list (string * JValue))
    : list (string * JValue) :=
  match props with
  | [] => [(k, v)]
  | (k', v') :: r => if String.eqb k k' then (k, v) :: r else (k', v') :: define k v r
  end.

Definition collapse (props : list (string * JValue)) : list (string * JValue) :=
  fold_left (fun acc kv => define (fst kv) (snd kv) acc) props [].

(** What comes back of a value inside the text: a property whose value is
    [undefined] is not printed, [undefined] in an array is printed as
    [null]. *)
Fixpoint reparse (v : JValue) : JValue :=
  match v with
  | JUndefined => JNull
  | JNum n => if finite n then JNum n else JNull
  | JStr s => JStr (inHTMLData s)
  | JArr items => JArr (map reparse items)
  | JObj props =>
      JObj (collapse
              ((fix walk (l : list (string * JValue)) : list (string * JValue) :=
                  match l with
                  | [] => []
                  | (_, JUndefined) :: r => walk r
                  | (k, x) :: r => (inHTMLData k, reparse x) :: walk r
                  end) props))
  | _ => v
  end.

(** [String.prototype.trim]: the white space and line terminators of
    JavaScript, in UTF-8. *)
Definition WhiteSpace : list (list ascii) :=
  map (map ascii_of_nat)
    [[9]; [10]; [11]; [12]; [13]; [32]; [194; 160]; [225; 154; 128];
     [226; 128; 128]; [226; 128; 129]; [226; 128; 130]; [226; 128; 131];
     [226; 128; 132]; [226; 128; 133]; [226; 128; 134]; [226; 128; 135];
     [226; 128; 136]; [226; 128; 137]; [226; 128; 138]; [226; 128; 168];
     [226; 128; 169]; [226; 128; 175]; [226; 129; 159]; [227; 128; 128];
     [239; 187; 191]]%nat.

Fixpoint strip (p l : list ascii) : option (list ascii) :=
  match p, l with
  | [], _ => Some l
  | a :: p', b :: l' => if Ascii.eqb a b then strip p' l' else None
  | _ :: _, [] => None
  end.

Fixpoint strip_any (ps : list (list ascii)) (l : list ascii) : option (list ascii) :=
  match ps with
  | [] => None
  | p :: r => match strip p l with
              | Some rest => Some rest
              | None => strip_any r l
              end
  end.

Fixpoint trimStart (fuel : nat) (ws : list (list ascii)) (l : list ascii) : list ascii :=
  match fuel with
  | O => l
  | S f => match strip_any ws l with
           | Some rest => trimStart f ws rest
           | None => l
           end
  end.

Definition trim (s : string) : string :=
  let l := trimStart (String.length s) WhiteSpace (list_ascii_of_string s) in
  string_of_list_ascii
    (rev (trimStart (length l) (map (@rev ascii) WhiteSpace) (rev l))).

(** [clean] of [lib/xss.js]: an object goes through JSON, anything else is
    made a string, escaped and trimmed. *)
Definition clean (v : JValue) : JValue :=
  match v with
  | JUndefined => JStr EmptyString
  | JNull => JNull
  | JBool true => JStr "true"
  | JBool false => JStr "false"
  | JNum n => JStr (trim (inHTMLData n))
  | JStr s => JStr (trim (inHTMLData s))
  | JArr _ | JObj _ => reparse v
  end.

Definition truthy (v : JValue) : bool :=
  match v with
  | JUndefined | JNull | JBool false | JStr EmptyString => false
  | JNum n => negb (String.eqb n "0" || String.eqb n "NaN")
  | _ => true
  end.

(** [if (req.x) req.x = clean(req.x)] *)
Definition cleaned (v : JValue) : JValue := if truthy v then clean v else v.

(** [JSON.stringify] of a [Buffer]. *)
Definition buffer_json (bytes : list byte) : JValue :=
  JObj [("type", JStr "Buffer");
        ("data", JArr (map (fun b => JNum (pretty (Byte.to_N b))) bytes))].

Definition clean_body (b : Body) : Body :=
  match b with
  | BUndefined => BUndefined
  | BBuffer bytes => BData (reparse (buffer_json bytes))
  | BData v => BData (cleaned v)
  end.

Definition clean_request (c : Ctx) : Ctx :=
  set_inputs (clean_body (body c)) (cleaned (cquery c)) (cleaned (params c)) c.

Definition xss (c : Ctx) : Step := Next (clean_request c).

End XssClean.

(** ** hpp: array values of top-level parameters are put aside and replaced
    by their last element, unless the parameter is whitelisted *)
Module Hpp.

Definition whitelisted (whitelist : list string) (k : string) : bool :=
  existsb (String.eqb k) whitelist.

Definition select_last (items : list JValue) : JValue := List.last items JUndefined.

Definition keep (whitelist : list string) (kv : string * JValue) : string * JValue :=
  match kv with
  | (k, JArr items) => if whitelisted whitelist k then kv else (k, select_last items)
  | _ => kv
  end.

Definition aside (whitelist : list string) (kv : string * JValue) : bool :=
  match kv with
  | (k, JArr _) => negb (whitelisted whitelist k)
  | _ => false
  end.

Fixpoint obj_set (k : string) (v : JValue) (props : list (string * JValue))
    : list (string * JValue) :=
  match props with
  | [] => [(k, v)]
  | (k', v') :: r => if String.eqb k k' then (k, v) :: r else (k', v') :: obj_set k v r
  end.

(** A part that an earlier hpp already processed: whitelisted parameters
    found aside are put back. *)
Definition restore (whitelist : list string) (props polluted : list (string * JValue))
    : list (string * JValue) * list (string * JValue) :=
  (fold_left (fun acc kv => if whitelisted whitelist (fst kv)
                            then obj_set (fst kv) (snd kv) acc else acc) polluted props,
   List.filter (fun kv => negb (whitelisted whitelist (fst kv))) polluted).

Definition put_aside (whitelist : list string) (props : list (string * JValue))
    (polluted : option (list (string * JValue)))
    : list (string * JValue) * list (string * JValue) :=
  match polluted with
  | None => (map (keep whitelist) props, List.filter (aside whitelist) props)
  | Some p => restore whitelist props p
  end.

Definition guard (whitelist : list string) (c : Ctx) : Ctx :=
  let '(q, qp) :=
    match cquery c with
    | JObj props =>
        let '(props', p) := put_aside whitelist props (queryPolluted c) in
        (JObj props', Some p)
    | q => (q, queryPolluted c)
    end in
  let '(b, bp) :=
    match body c with
    | BData (JObj props) =>
        if BodyParser.type_is (req c) "application/x-www-form-urlencoded"
        then let '(props', p) := put_aside whitelist props (bodyPolluted c) in
             (BData (JObj props'), Some p)
        else (body c, bodyPolluted c)
    | b => (b, bodyPolluted c)
    end in
  set_polluted q qp b bp c.

Definition hpp (whitelist : list string) (c : Ctx) : Step := Next (guard whitelist c).

End Hpp.

(** ** The application *)
Module App.

(** The middleware functions that [app.js] registers, with their options. *)
Inductive Handler :=
| express_static (root : string)
| cors
| helmet (directives : list (string * list string))
| morgan (format : string)
| rateLimit (options : RateLimit.Options)
| express_raw (type : string)
| webhookCheckout
| express_json (limit : Z)
| express_urlencoded (extended : bool) (limit : Z)
| cookieParser
| mongoSanitize
| xss
| hpp (whitelist : list string)
| compression
| testMiddleware                 (* the arrow function of lines 108-112 *)
| router (r : RouterName)
| unhandledRoute                 (* the arrow function of lines 123-125 *)
| globalErrorHandler.

(** [app.use([path,] fn)] and [app.METHOD(path, fn...)]; [verb = None] is
    [app.all]. *)
Inductive Layer :=
| Use (mount : string) (fn : Handler)
| Route (verb : option Method) (pattern : string) (fns : list Handler).

(** Express tells error-handling middleware by its four parameters. *)
Definition is_error_handler (h : Handler) : bool :=
  match h with
  | globalErrorHandler => true
  | _ => false
  end.

Definition development (E : Env) : bool :=
  match NODE_ENV E with
  | Some v => String.eqb v "development"
  | None => false
  end.

Definition contentSecurityPolicy : list (string * list string) :=
  [("default-src", ["'self'"; "https://js.stripe.com/v3/"]);
   ("img-src", ["'self'"; "https://api.maptiler.com/maps/dataviz/"]);
   ("script-src", ["'self'"; "https://js.stripe.com/v3/"])].

Definition limiter : Handler :=
  rateLimit {| RateLimit.max := 100;
               RateLimit.windowMs := 60 * 60 * 1000;
               RateLimit.message :=
                 "Too many requests from this IP, please try again in one hour!" |}.

Definition hpp_whitelist : list string :=
  ["duration"; "ratingAverage"; "ratingQuantity"; "maxGroupSize"; "difficulty"; "price"].

(** The stack, in the order in which [app.js] registers it. *)
Definition app (E : Env) : list Layer :=
  [ Use "/" (express_static "public");
    Use "/" cors;
    Route (Some OPTIONS) "*" [cors];
    Use "/" (helmet contentSecurityPolicy) ]
  ++ (if development E then [Use "/" (morgan "dev")] else [])
  ++ [ Use "/api" limiter;
       Route (Some POST) "/webhook-checkout"
         [express_raw "application/json"; webhookCheckout];
       Use "/" (express_json (BodyParser.kb 10));
       Use "/" (express_urlencoded true (BodyParser.kb 10));
       Use "/" cookieParser;
       Use "/" mongoSanitize;
       Use "/" xss;
       Use "/" (hpp hpp_whitelist);
       Use "/" compression;
       Use "/" testMiddleware;
       Use "/" (router viewRouter);
       Use "/api/v1/tours" (router tourRouter);
       Use "/api/v1/users" (router userRouter);
       Use "/api/v1/reviews" (router reviewRouter);
       Use "/api/v1/bookings" (router bookingRouter);
       Route None "*" [unhandledRoute];
       Use "/" globalErrorHandler ].

(** *** What each function does when Express calls it *)

Definition settle (x : Response + Err) (c : Ctx) : Step :=
  match x with
  | inl r => End r
  | inr e => NextErr e c
  end.

Definition call (E : Env) (now : Z) (h : Handler) (s : RateLimit.Store) (c : Ctx)
    : RateLimit.Store * Step :=
  match h with
  | express_static _ => (s, ServeStatic.serve E c)
  | cors => (s, Cors.cors c)
  | helmet directives => (s, Next (add_headers (helmet_headers E directives) c))
  | morgan _ => (s, Next c)
  | rateLimit o => RateLimit.rateLimit o now s c
  | express_raw type => (s, BodyParser.raw E type c)
  | webhookCheckout => (s, settle (bookingController_webhookCheckout E c) c)
  | express_json limit => (s, BodyParser.json E limit c)
  | express_urlencoded _ limit => (s, BodyParser.urlencoded E limit c)
  | cookieParser => (s, CookieParser.cookieParser E c)
  | mongoSanitize => (s, MongoSanitize.mongoSanitize c)
  | xss => (s, XssClean.xss c)
  | hpp whitelist => (s, Hpp.hpp whitelist c)
  | compression => (s, Next c)
  | testMiddleware =>
      (* req.requestedAt = new Date().toISOString; next(); *)
      (s, Next (set_requestedAt (FunctionRef "Date.prototype.toISOString") c))
  | router r =>
      (s, match routed E r c with
          | Some x => settle x c
          | None => Next c
          end)
  | unhandledRoute =>
      (* next(new AppError(`Cannot find ${req.originalUrl} on this server`, 404)); *)
      (s, NextErr (AppError ("Cannot find " ++ originalUrl (req c) ++ " on this server") 404) c)
  | globalErrorHandler => (s, Next c)
  end.

Definition call_error (E : Env) (h : Handler) (e : Err) (c : Ctx) : Step :=
  match h with
  | globalErrorHandler => End (errorController E e c)
  | _ => NextErr e c
  end.

(** *** How Express walks the stack *)

Inductive Flow :=
| Go (err : option Err) (c : Ctx)      (* next() or next(err) was called *)
| Done (r : Response).                 (* a handler answered *)

Definition flow_of (st : Step) : Flow :=
  match st with
  | Next c => Go None c
  | NextErr e c => Go (Some e) c
  | End r => Done r
  end.

(** [trace] lists the functions run so far, each with the context it was
    given, oldest first. *)
Record Run := {
  store : RateLimit.Store;
  flow : Flow;
  trace : list (Handler * Ctx);
}.

Definition invoke (E : Env) (now : Z) (r : Run) (h : Handler) : Run :=
  match flow r with
  | Done _ => r
  | Go None c =>
      if is_error_handler h then r
      else let '(s, st) := call E now h (store r) c in
           {| store := s; flow := flow_of st; trace := trace r ++ [(h, c)] |}
  | Go (Some e) c =>
      if is_error_handler h
      then {| store := store r; flow := flow_of (call_error E h e c);
              trace := trace r ++ [(h, c)] |}
      else r
  end.

Definition handles_method (verb : option Method) (m : Method) : bool :=
  match verb with
  | None => true
  | Some v => Method_eqb m v || (Method_eqb m HEAD && Method_eqb v GET)
  end.

Definition layer_step (E : Env) (now : Z) (rq : Request) (r : Run) (l : Layer) : Run :=
  match l with
  | Use mount fn =>
      if Express.use_match mount (path rq) then invoke E now r fn else r
  | Route verb pattern fns =>
      match flow r with
      | Go None _ =>
          if Express.verb_match pattern (path rq) && handles_method verb (method rq)
          then fold_left (invoke E now) fns r
          else r
      | _ => r
      end
  end.

Definition walk (E : Env) (now : Z) (rq : Request) (stack : list Layer) (r : Run) : Run :=
  fold_left (layer_step E now rq) stack r.

Definition start (s : RateLimit.Store) (rq : Request) : Run :=
  {| store := s; flow := Go None (arrive rq); trace := [] |}.

(** A request that arrives at time [now] while the limiter's store is [s]. *)
Definition handle (E : Env) (now : Z) (s : RateLimit.Store) (rq : Request) : Run :=
  walk E now rq (app E) (start s rq).

Definition ran (r : Run) : list Handler := map fst (trace r).

End App.

(** ** Vocabulary of the pipeline contract *)
Module Contract.
Import App.

(** The sixteen stages of the contract, in the order it requires. *)
Inductive Stage :=
| StaticAssets | CrossOrigin | SecurityHeaders | DiagnosticLogging
| RateLimiting | RawBodyPassthrough | BodyParsing | CookieParsing
| InjectionSanitization | ScriptSanitization | PollutionGuard
| ResponseCompression | ContextAnnotation | RouteDispatch
| NotFoundFallback | TerminalError.

#[global] Instance Stage_eq_dec : EqDecision Stage.
Proof. solve_decision. Defined.

Definition required_order : list Stage :=
  [StaticAssets; CrossOrigin; SecurityHeaders; DiagnosticLogging;
   RateLimiting; RawBodyPassthrough; BodyParsing; CookieParsing;
   InjectionSanitization; ScriptSanitization; PollutionGuard;
   ResponseCompression; ContextAnnotation; RouteDispatch;
   NotFoundFallback; TerminalError].

Definition stage_of (h : Handler) : Stage :=
  match h with
  | express_static _ => StaticAssets
  | cors => CrossOrigin
  | helmet _ => SecurityHeaders
  | morgan _ => DiagnosticLogging
  | rateLimit _ => RateLimiting
  | express_raw _ | webhookCheckout => RawBodyPassthrough
  | express_json _ | express_urlencoded _ _ => BodyParsing
  | cookieParser => CookieParsing
  | mongoSanitize => InjectionSanitization
  | xss => ScriptSanitization
  | hpp _ => PollutionGuard
  | compression => ResponseCompression
  | testMiddleware => ContextAnnotation
  | router _ => RouteDispatch
  | unhandledRoute => NotFoundFallback
  | globalErrorHandler => TerminalError
  end.

Definition handlers_of (l : Layer) : list Handler :=
  match l with
  | Use _ fn => [fn]
  | Route _ _ fns => fns
  end.

(** Every function of the stack, in registration order. *)
Definition registered (stack : list Layer) : list Handler := flat_map handlers_of stack.

(** Neighbouring functions of one stage count once. *)
Fixpoint squash (l : list Stage) : list Stage :=
  match l with
  | a :: r =>
      match r with
      | b :: _ => if decide (a = b) then squash r else a :: squash r
      | [] => [a]
      end
  | [] => []
  end.

Definition registered_stages (E : Env) : list Stage :=
  squash (map stage_of (registered (app E))).

(** Logging is the one stage that depends on the environment. *)
Definition enabled (E : Env) (s : Stage) : bool :=
  match s with
  | DiagnosticLogging => development E
  | _ => true
  end.

Definition routers_of (hs : list Handler) : list RouterName :=
  flat_map (fun h => match h with router r => [r] | _ => [] end) hs.

(** The handlers that own a request: the webhook handler and the routers. *)
Definition is_route_handler (h : Handler) : bool :=
  match h with
  | webhookCheckout | router _ => true
  | _ => false
  end.

(** Is there, at any depth, a key that begins with the operator marker? *)
Fixpoint has_operator_key (v : JValue) : bool :=
  match v with
  | JArr items => existsb has_operator_key items
  | JObj props =>
      (fix any (l : list (string * JValue)) : bool :=
         match l with
         | [] => false
         | (k, x) :: r => MongoSanitize.starts_with_dollar k || has_operator_key x || any r
         end) props
  | _ => false
  end.

Definition body_has_operator_key (b : Body) : bool :=
  match b with
  | BData v => has_operator_key v
  | _ => false
  end.

Definition operator_free (c : Ctx) : bool :=
  negb (body_has_operator_key (body c))
  && negb (has_operator_key (cquery c))
  && negb (has_operator_key (params c)).

(** What the pollution guard leaves of a query or form. *)
Definition guarded (whitelist : list string) (v : JValue) : JValue :=
  match v with
  | JObj props => JObj (map (Hpp.keep whitelist) props)
  | _ => v
  end.

(** What the contract asks of the guard, parameter by parameter: a
    parameter that arrived with several values is given with the last of
    them, unless its name is on the list, in which case it is given with
    all of them; any other parameter is given as it arrived. *)
Definition last_kept (whitelist : list string) (arrived given : string * JValue) : Prop :=
  fst given = fst arrived
  /\ match snd arrived with
     | JArr items =>
         (In (fst arrived) whitelist -> snd given = JArr items)
         /\ (~ In (fst arrived) whitelist ->
             (items = [] /\ snd given = JUndefined)
             \/ exists earlier, items = (earlier ++ [snd given])%list)
     | v => snd given = v
     end.

Definition keeps_last (whitelist : list string) (arrived given : JValue) : Prop :=
  match arrived with
  | JObj props =>
      exists props', given = JObj props' /\ Forall2 (last_kept whitelist) props props'
  | v => given = v
  end.

Definition props_of (v : JValue) : list (string * JValue) :=
  match v with
  | JObj props => props
  | _ => []
  end.




Definition limiter_options : RateLimit.Options :=
  match limiter with
  | rateLimit o => o
  | _ => {| RateLimit.max := 0; RateLimit.windowMs := 0; RateLimit.message := EmptyString |}
  end.

(** The context as the request arrived: no stage has rewritten its query
    or parameters yet. *)
Definition untouched (rq : Request) (c : Ctx) : Prop :=
  req c = rq /\ cquery c = query rq /\ params c = JObj []
  /\ queryPolluted c = None /\ bodyPolluted c = None.

(** The functions registered before the sanitisers. *)
Definition is_front (h : Handler) : bool :=
  match h with
  | express_static _ | cors | helmet _ | morgan _ | rateLimit _ | express_raw _
  | webhookCheckout | express_json _ | express_urlencoded _ _ | cookieParser => true
  | _ => false
  end.

(** What the sanitisers, the pollution guard and the annotation stage make
    of a context, in the order in which they are registered. *)
Definition after_guards (c : Ctx) : Ctx :=
  set_requestedAt (FunctionRef "Date.prototype.toISOString")
    (Hpp.guard hpp_whitelist
       (XssClean.clean_request (MongoSanitize.sanitize_request c))).

(** The context in which the functions after helmet are called first. *)
Definition opened (E : Env) (rq : Request) : Ctx :=
  add_headers (helmet_headers E contentSecurityPolicy)
    (add_headers [("Access-Control-Allow-Origin", "*")] (arrive rq)).

(** Cutting the stack: the layers are counted from the limiter, which
    follows four layers, or five when logging is registered. *)
Definition opening (E : Env) : nat := if development E then 5 else 4.

Definition upto (n : nat) (E : Env) : list Layer := firstn (opening E + n) (app E).

Definition beyond (n : nat) (E : Env) : list Layer := skipn (opening E + n) (app E).

(** Does Express run the layer for this request (error handling aside)? *)
Definition layer_matches (rq : Request) (l : Layer) : bool :=
  match l with
  | Use mount _ => Express.use_match mount (path rq)
  | Route verb pattern _ =>
      Express.verb_match pattern (path rq) && handles_method verb (method rq)
  end.

Definition is_rateLimit (h : Handler) : bool :=
  match h with
  | rateLimit _ => true
  | _ => false
  end.

(** The functions that run first on every request that is not answered
    at once. *)
Definition opening_fns (E : Env) : list Handler :=
  [express_static "public"; cors; helmet contentSecurityPolicy]
  ++ (if development E then [morgan "dev"] else []).

(** The functions from the generic body parsers to the view router. *)
Definition parsers_to_views : list Handler :=
  [express_json (BodyParser.kb 10); express_urlencoded true (BodyParser.kb 10);
   cookieParser; mongoSanitize; xss; hpp hpp_whitelist; compression; testMiddleware;
   router viewRouter].

Definition is_raw_route (h : Handler) : bool :=
  match h with
  | express_raw _ | webhookCheckout => true
  | _ => false
  end.

(** The functions registered before the webhook route. *)
Definition is_opening (h : Handler) : bool :=
  match h with
  | express_static _ | cors | helmet _ | morgan _ | rateLimit _ => true
  | _ => false
  end.

(** No layer that would run for the request holds a function of kind [p]. *)
Definition skips (p : Handler -> bool) (rq : Request) (stack : list Layer) : bool :=
  forallb (fun l => forallb (fun h => negb (p h)) (handlers_of l)
                    || negb (layer_matches rq l)) stack.


End Contract.

(** ** A small deployment, to run the pipeline on concrete requests *)
Module Sample.

Definition env : Env :=
  {| NODE_ENV := Some "production";
     public_send := fun _ => None;
     zlib_inflate := fun _ bytes => Some bytes;
     iconv_decode := fun cs => if String.eqb cs "utf-8" then Some string_of_list_byte else None;
     JSON_parse := fun _ => Some (JObj [("name", JStr "The Forest Hiker")]);
     qs_parse := fun _ => Some (JObj []);
     cookie_parse := fun _ => [];
     helmet_headers := fun _ => [];
     bookingController_webhookCheckout :=
       fun _ => inl {| status := 200; payload := PText "received" |};
     routed := fun r c =>
       match r with
       | userRouter =>
           if String.eqb (path (req c)) "/api/v1/users/updateMe"
           then Some (inl {| status := 200; payload := PText "updated" |})
           else None
       | _ => None
       end;
     errorController := fun e _ =>
       match e with
       | AppError m code => {| status := code; payload := PText m |}
       | HttpError code type => {| status := code; payload := PText type |}
       | Thrown _ => {| status := 500; payload := PText "Something went very wrong!" |}
       end |}.

Definition development_env : Env :=
  {| NODE_ENV := Some "development";
     public_send := public_send env;
     zlib_inflate := zlib_inflate env;
     iconv_decode := iconv_decode env;
     JSON_parse := JSON_parse env;
     qs_parse := qs_parse env;
     cookie_parse := cookie_parse env;
     helmet_headers := helmet_headers env;
     bookingController_webhookCheckout := bookingController_webhookCheckout env;
     routed := routed env;
     errorController := errorController env |}.

(** An empty store whose window ends one hour after time 0. *)
Definition fresh : RateLimit.Store :=
  {| RateLimit.hits := ∅; RateLimit.resetTime := 3600000 |}.

(** A store in which one client has used up the window. *)
Definition exhausted : RateLimit.Store :=
  {| RateLimit.hits := {[ "203.0.113.7" := 100 ]}; RateLimit.resetTime := 3600000 |}.

Definition request (m : Method) (url p : string) (q : JValue)
    (type : option string) (wire : option (list byte)) : Request :=
  {| method := m; originalUrl := url; path := p; query := q; ip := "203.0.113.7";
     contentType := type; charset := None; contentEncoding := identity; cookieHeader := None;
     rawBody := wire |}.

Definition event : list byte := list_byte_of_string "{}".

(** The payment processor's call, sent as JSON. *)
Definition webhook_json : Request :=
  request POST "/webhook-checkout" "/webhook-checkout" (JObj [])
    (Some "application/json") (Some event).

(** The same call with another content type. *)
Definition webhook_text : Request :=
  request POST "/webhook-checkout" "/webhook-checkout" (JObj [])
    (Some "text/plain") (Some event).

(** A call to the webhook path whose query carries an operator key and a
    repeated parameter. *)
Definition webhook_query : Request :=
  request POST "/webhook-checkout?$where=1&sort=price&sort=name" "/webhook-checkout"
    (JObj [("$where", JStr "1"); ("sort", JArr [JStr "price"; JStr "name"])])
    (Some "application/json") (Some event).

Definition webhook_get : Request :=
  request GET "/webhook-checkout" "/webhook-checkout" (JObj []) None None.

(** A PUT to the webhook path with a JSON body of 10241 bytes. *)
Definition webhook_put : Request :=
  request PUT "/webhook-checkout" "/webhook-checkout" (JObj [])
    (Some "application/json") (Some (List.repeat "x"%byte (Z.to_nat 10241))).

Definition webhook_preflight : Request :=
  request OPTIONS "/webhook-checkout" "/webhook-checkout" (JObj []) None None.

Definition preflight_nowhere : Request :=
  request OPTIONS "/nowhere" "/nowhere" (JObj []) None None.

Definition nowhere : Request :=
  request GET "/api/v1/nowhere?$gt=1" "/api/v1/nowhere" (JObj [("$gt", JStr "1")]) None None.

Definition tours_query : Request :=
  request GET "/api/v1/tours?$where=1&sort=price&sort=name&price=1&price=2" "/api/v1/tours"
    (JObj [("$where", JStr "1"); ("sort", JArr [JStr "price"; JStr "name"]);
           ("price", JArr [JStr "1"; JStr "2"])])
    None None.

(** ?sort=price&sort=name&sort=duration&price=1&price=2 *)
Definition tours_sorted : Request :=
  request GET "/api/v1/tours?sort=price&sort=name&sort=duration&price=1&price=2"
    "/api/v1/tours"
    (JObj [("sort", JArr [JStr "price"; JStr "name"; JStr "duration"]);
           ("price", JArr [JStr "1"; JStr "2"])])
    None None.

Definition big : list byte := List.repeat "x"%byte (Z.to_nat 10241).








(** The context in which the limiter and the functions up to the parsers
    are called. *)
Definition after_headers (rq : Request) : Ctx :=
  add_headers [("Access-Control-Allow-Origin", "*")] (arrive rq).

(** The same context once a body parser has set [req.body]. *)
Definition with_body (rq : Request) (b : Body) (parsed : bool) : Ctx :=
  set_body b parsed (after_headers rq).

End Sample.

(** ** The claims of the contract that the pipeline does not meet as they
    are written, stated over every environment and request *)
Module AsWritten.
Import App Contract.

(** Whatever the request to the webhook path, the handler is given the
    bytes of the wire. *)
Definition webhook_always_gets_wire_bytes : Prop :=
  forall E now s rq c wire,
    Express.verb_match "/webhook-checkout" (path rq) = true ->
    rawBody rq = Some wire ->
    In (webhookCheckout, c) (trace (handle E now s rq)) ->
    body c = BBuffer wire.

(** A request to the webhook path with another method than POST goes
    through the generic body parsers. *)
Definition other_methods_reach_body_parsers : Prop :=
  forall E now s rq,
    Express.verb_match "/webhook-checkout" (path rq) = true ->
    method rq <> POST ->
    In (express_json (BodyParser.kb 10)) (ran (handle E now s rq)).


(** No route handler is given a key that begins with the operator marker. *)
Definition route_handlers_never_see_operator_keys : Prop :=
  forall E now s rq h c,
    is_route_handler h = true ->
    In (h, c) (trace (handle E now s rq)) ->
    operator_free c = true.

(** A request that no router takes is answered through the not-found
    fallback and the terminal error stage. *)
Definition unmatched_request_gets_not_found : Prop :=
  forall E now s rq,
    (forall r c, req c = rq -> routed E r c = None) ->
    exists c,
      flow (handle E now s rq)
      = Done (errorController E
                (AppError ("Cannot find " ++ originalUrl rq ++ " on this server") 404) c).

(** No route handler is given an array under a query key outside the
    allow-list. *)
Definition route_handlers_see_one_occurrence : Prop :=
  forall E now s rq h c k v,
    is_route_handler h = true ->
    In (h, c) (trace (handle E now s rq)) ->
    In (k, v) (props_of (cquery c)) ->
    Hpp.whitelisted hpp_whitelist k = false ->
    forall items, v <> JArr items.

End AsWritten.

(** ** Further vocabulary of the wiring: mounts, logging, headers, markup *)
Module Wiring.
Import App Contract.

(** Where [app.js] mounts each router (lines 115-119). *)
Definition mount_of (r : RouterName) : string :=
  match r with
  | viewRouter => "/"
  | tourRouter => "/api/v1/tours"
  | userRouter => "/api/v1/users"
  | reviewRouter => "/api/v1/reviews"
  | bookingRouter => "/api/v1/bookings"
  end.

(** The layer of a router, counted from the limiter. *)
Definition layer_of (r : RouterName) : nat :=
  match r with
  | viewRouter => 10
  | tourRouter => 11
  | userRouter => 12
  | reviewRouter => 13
  | bookingRouter => 14
  end.

(** The same process started under another NODE_ENV. *)
Definition with_NODE_ENV (v : option string) (E : Env) : Env :=
  {| NODE_ENV := v;
     public_send := public_send E;
     zlib_inflate := zlib_inflate E;
     iconv_decode := iconv_decode E;
     JSON_parse := JSON_parse E;
     qs_parse := qs_parse E;
     cookie_parse := cookie_parse E;
     helmet_headers := helmet_headers E;
     bookingController_webhookCheckout := bookingController_webhookCheckout E;
     routed := routed E;
     errorController := errorController E |}.

Definition is_morgan (h : Handler) : bool :=
  match h with
  | morgan _ => true
  | _ => false
  end.

(** A trace without the entries of the logger. *)
Definition quiet (t : list (Handler * Ctx)) : list (Handler * Ctx) :=
  List.filter (fun x => negb (is_morgan (fst x))) t.

(** Two runs that differ at most in what the logger saw. *)
Definition same_outcome (r r' : Run) : Prop :=
  store r = store r' /\ flow r = flow r' /\ quiet (trace r) = quiet (trace r').


(** The header that cors sets with its default options. *)
Definition allow_origin : string * string := ("Access-Control-Allow-Origin", "*").



(** The functions registered before cookie-parser. *)
Definition is_before_cookies (h : Handler) : bool :=
  match h with
  | express_static _ | cors | helmet _ | morgan _ | rateLimit _ | express_raw _
  | webhookCheckout | express_json _ | express_urlencoded _ _ => true
  | _ => false
  end.

(** [req.cookies] as cookie-parser sets it for a request. *)
Definition cookies_of (E : Env) (rq : Request) : list (string * string) :=
  match cookieHeader rq with
  | Some h => cookie_parse E h
  | None => []
  end.

Fixpoint has_lt (s : string) : bool :=
  match s with
  | EmptyString => false
  | String "<"%char _ => true
  | String _ r => has_lt r
  end.

(** Is there, at any depth, a key or a string with a ['<'] in it? *)
Fixpoint has_markup (v : JValue) : bool :=
  match v with
  | JStr s => has_lt s
  | JArr items => existsb has_markup items
  | JObj props =>
      (fix any (l : list (string * JValue)) : bool :=
         match l with
         | [] => false
         | (k, x) :: r => has_lt k || has_markup x || any r
         end) props
  | _ => false
  end.

Definition body_has_markup (b : Body) : bool :=
  match b with
  | BData v => has_markup v
  | _ => false
  end.

(** Is there, at any depth, a key that express-mongo-sanitize deletes? *)
Fixpoint has_flagged_key (v : JValue) : bool :=
  match v with
  | JArr items => existsb has_flagged_key items
  | JObj props =>
      (fix any (l : list (string * JValue)) : bool :=
         match l with
         | [] => false
         | (k, x) :: r => MongoSanitize.TEST_REGEX k || has_flagged_key x || any r
         end) props
  | _ => false
  end.

Definition body_has_flagged_key (b : Body) : bool :=
  match b with
  | BData v => has_flagged_key v
  | _ => false
  end.

Fixpoint distinct (names : list string) : bool :=
  match names with
  | [] => true
  | k :: r => negb (existsb (String.eqb k) r) && distinct r
  end.

(** What qs.parse builds: strings, arrays, and objects whose names differ. *)
Fixpoint plain (v : JValue) : bool :=
  match v with
  | JStr _ => true
  | JArr items => forallb plain items
  | JObj props =>
      distinct (map fst props)
      && (fix all (l : list (string * JValue)) : bool :=
            match l with
            | [] => true
            | (_, x) :: r => plain x && all r
            end) props
  | _ => false
  end.

(** [req.query] as Express's query parser sets it: an object of that kind. *)
Definition parsed_query (v : JValue) : bool :=
  match v with
  | JObj _ => plain v
  | _ => false
  end.

(** No top-level parameter outside the allow-list is repeated. *)
Definition unrepeated (whitelist : list string) (v : JValue) : bool :=
  match v with
  | JObj props =>
      forallb (fun kv => match snd kv with
                         | JArr _ => Hpp.whitelisted whitelist (fst kv)
                         | _ => true
                         end) props
  | _ => true
  end.

(** The three tests on one property of an object. *)
Definition names_operator (kv : string * JValue) : bool :=
  MongoSanitize.starts_with_dollar (fst kv) || has_operator_key (snd kv).

Definition names_markup (kv : string * JValue) : bool :=
  has_lt (fst kv) || has_markup (snd kv).

Definition names_flagged (kv : string * JValue) : bool :=
  MongoSanitize.TEST_REGEX (fst kv) || has_flagged_key (snd kv).

(** What xss-clean's round trip prints of a property. *)
Definition printed (kv : string * JValue) : list (string * JValue) :=
  match snd kv with
  | JUndefined => []
  | x => [(XssClean.inHTMLData (fst kv), XssClean.reparse x)]
  end.

End Wiring.

(** ** A deployment with a static asset *)
Module Site.

Definition stylesheet : list byte := list_byte_of_string "body{margin:0}".

Definition env : Env :=
  {| NODE_ENV := Some "development";
     public_send := fun r =>
       if String.eqb (path r) "/css/style.css"
       then Some {| status := 200;
                    payload := match method r with HEAD => PEmpty | _ => PFile stylesheet end |}
       else None;
     zlib_inflate := zlib_inflate Sample.env;
     iconv_decode := iconv_decode Sample.env;
     JSON_parse := JSON_parse Sample.env;
     qs_parse := qs_parse Sample.env;
     cookie_parse := fun h => [("jwt", h)];
     helmet_headers := fun _ => [("X-Content-Type-Options", "nosniff")];
     bookingController_webhookCheckout := bookingController_webhookCheckout Sample.env;
     routed := fun r c =>
       match r with
       | viewRouter =>
           if String.eqb (path (req c)) "/" then
             Some (inl {| status := 200; payload := PView "overview" |})
           else if String.eqb (path (req c)) "/me" then
             Some (inr (AppError "You are not logged in!" 401))
           else None
       | tourRouter => Some (inl {| status := 200; payload := PText "tours" |})
       | _ => None
       end;
     errorController := errorController Sample.env |}.

Definition get (p : string) (q : JValue) (cookie : option string) : Request :=
  {| method := GET; originalUrl := p; path := p; query := q; ip := "198.51.100.4";
     contentType := None; charset := None; contentEncoding := identity; cookieHeader := cookie;
     rawBody := None |}.

Definition get_stylesheet : Request := get "/css/style.css" (JObj []) None.

Definition post_stylesheet : Request :=
  {| method := POST; originalUrl := "/css/style.css"; path := "/css/style.css";
     query := JObj []; ip := "198.51.100.4"; contentType := None; charset := None;
     contentEncoding := identity; cookieHeader := None; rawBody := None |}.

Definition preflight : Request :=
  {| method := OPTIONS; originalUrl := "/api/v1/tours"; path := "/api/v1/tours";
     query := JObj []; ip := "198.51.100.4"; contentType := None; charset := None;
     contentEncoding := identity; cookieHeader := None; rawBody := None |}.

Definition home : Request := get "/" (JObj []) (Some "token").

Definition account : Request := get "/me" (JObj []) None.

Definition tours : Request :=
  get "/api/v1/tours"
    (JObj [("difficulty", JStr "easy"); ("price", JArr [JStr "1"; JStr "2"])]) None.

Definition tours_markup : Request :=
  get "/api/v1/tours"
    (JObj [("name", JStr "<script>"); ("a.b", JStr "1"); ("sort", JArr [JStr "x"; JStr "y"])])
    None.

(** The context in which the functions after helmet are called. *)
Definition after_helmet (rq : Request) : Ctx :=
  add_headers [("X-Content-Type-Options", "nosniff")]
    (add_headers [Wiring.allow_origin] (arrive rq)).

(** The context that leaves cookie-parser for a request without a body. *)
Definition parsed (rq : Request) : Ctx :=
  set_cookies (Wiring.cookies_of env rq)
    (set_body BodyParser.empty_object false (after_helmet rq)).

End Site.

(** * Properties *)

Open Scope list_scope.

(** ** Paths *)


Lemma use_match_root p : Express.use_match "/" p = true.
Proof. reflexivity. Qed.

Lemma verb_match_star p : Express.verb_match "*" p = true.
Proof. reflexivity. Qed.

Lemma strip_prefix_Some p : forall s r, Express.strip_prefix p s = Some r -> s = p +:+ r.
Proof.
  induction p as [|a p IH]; intros s r H; simpl in H.
  - injection H as ->. reflexivity.
  - destruct s as [|b s]; [discriminate|].
    destruct (Ascii.eqb_spec a b) as [->|]; [|discriminate].
    change (String b s = String b (p +:+ r)). f_equal. now apply IH.
Qed.

(** The paths of the webhook route, up to letter case. *)
Lemma verb_match_webhook p :
  Express.verb_match "/webhook-checkout" p = true ->
  Express.lower p = "/webhook-checkout" \/ Express.lower p = "/webhook-checkout/".
Proof.
  unfold Express.verb_match. simpl String.eqb. cbv iota.
  destruct (Express.strip_prefix _ _) as [r|] eqn:H; [|discriminate].
  apply strip_prefix_Some in H. intros Hr.
  destruct r as [|a r]; [left; exact H|].
  destruct r; [|destruct a as [[] [] [] [] [] [] [] []]; discriminate].
  right. rewrite H.
  destruct a as [[] [] [] [] [] [] [] []]; try discriminate. reflexivity.
Qed.

Lemma webhook_not_under p mount :
  Express.verb_match "/webhook-checkout" p = true ->
  Express.use_match mount "/webhook-checkout" = false ->
  Express.use_match mount "/webhook-checkout/" = false ->
  Express.use_match mount p = false.
Proof.
  intros H H1 H2. unfold Express.use_match in *.
  destruct (String.eqb mount "/"); [discriminate|].
  destruct (verb_match_webhook p H) as [-> | ->]; assumption.
Qed.

(** ** Walking a stack *)
Section Walk.
Import App Contract.
Variables (E : Env) (now : Z) (rq : Request).

Lemma walk_app l1 l2 r :
  walk E now rq (l1 ++ l2) r = walk E now rq l2 (walk E now rq l1 r).
Proof. unfold walk. apply fold_left_app. Qed.

(** The three things [invoke] can do. *)
Lemma invoke_cases r h :
  invoke E now r h = r
  \/ (exists c, flow r = Go None c /\ is_error_handler h = false
        /\ invoke E now r h
           = {| store := fst (call E now h (store r) c);
                flow := flow_of (snd (call E now h (store r) c));
                trace := trace r ++ [(h, c)] |})
  \/ (exists e c, flow r = Go (Some e) c /\ h = globalErrorHandler
        /\ invoke E now r h
           = {| store := store r; flow := Done (errorController E e c);
                trace := trace r ++ [(h, c)] |}).
Proof.
  unfold invoke. destruct (flow r) as [[e|] c|x] eqn:Hf.
  - destruct h; simpl; auto. right; right. eauto.
  - destruct (is_error_handler h) eqn:He; auto.
    right; left. exists c. destruct (call E now h (store r) c). auto.
  - auto.
Qed.

Lemma invoke_go r h c :
  flow r = Go None c -> is_error_handler h = false ->
  invoke E now r h
  = {| store := fst (call E now h (store r) c);
       flow := flow_of (snd (call E now h (store r) c));
       trace := trace r ++ [(h, c)] |}.
Proof.
  intros Hf He. unfold invoke. rewrite Hf, He.
  destruct (call E now h (store r) c); reflexivity.
Qed.

Lemma invoke_done r h x : flow r = Done x -> invoke E now r h = r.
Proof. intros Hf. unfold invoke. now rewrite Hf. Qed.

Lemma invoke_err_skip r h e c :
  flow r = Go (Some e) c -> is_error_handler h = false -> invoke E now r h = r.
Proof. intros Hf He. unfold invoke. now rewrite Hf, He. Qed.

(** A property kept by every function of the layers that match the request
    is kept by the walk. *)
Lemma walk_inv_matched (I : Run -> Prop) stack :
  (forall l, In l stack -> layer_matches rq l = true ->
   forall h, In h (handlers_of l) -> forall r, I r -> I (invoke E now r h)) ->
  forall r, I r -> I (walk E now rq stack r).
Proof.
  induction stack as [|l stack IH]; intros Hh r Hr; [exact Hr|].
  simpl. apply IH.
  - intros l' Hin. apply Hh. now right.
  - assert (Hl : layer_matches rq l = true ->
                 forall h, In h (handlers_of l) -> forall r, I r -> I (invoke E now r h)).
    { apply Hh. now left. }
    clear Hh IH. destruct l as [mount fn | verb pattern fns]; simpl in *.
    + destruct (Express.use_match _ _); [|exact Hr]. apply Hl; auto.
    + destruct (flow r) as [[e|] c|x]; try exact Hr.
      destruct (_ && _); [|exact Hr].
      specialize (Hl eq_refl).
      revert r Hr. induction fns as [|f fns IHf]; intros r Hr; [exact Hr|].
      simpl. apply IHf.
      * intros h Hin. apply Hl. now right.
      * apply Hl; [now left | exact Hr].
Qed.

Lemma walk_inv (I : Run -> Prop) stack :
  (forall h, In h (registered stack) -> forall r, I r -> I (invoke E now r h)) ->
  forall r, I r -> I (walk E now rq stack r).
Proof.
  intros Hh. apply walk_inv_matched. intros l Hl _ h Hin. apply Hh.
  unfold registered. apply in_flat_map. eauto.
Qed.

(** Once a handler has answered, the rest of the stack is not run. *)
Lemma walk_done stack r x : flow r = Done x -> walk E now rq stack r = r.
Proof.
  intros Hf.
  assert (H : walk E now rq stack r = r /\ flow r = Done x); [|apply H].
  apply (walk_inv (fun r' => r' = r /\ flow r = Done x)); [|auto].
  intros h _ r' [-> Hd]. split; [|exact Hd]. eapply invoke_done; eauto.
Qed.

(** With an error pending, ordinary middleware and routes are skipped. *)
Lemma walk_err_skip stack r e c :
  flow r = Go (Some e) c ->
  forallb (fun h => negb (is_error_handler h)) (registered stack) = true ->
  walk E now rq stack r = r.
Proof.
  intros Hf Hall. rewrite forallb_forall in Hall.
  assert (H : walk E now rq stack r = r /\ flow r = Go (Some e) c); [|apply H].
  apply (walk_inv (fun r' => r' = r /\ flow r = Go (Some e) c)); [|auto].
  intros h Hin r' [-> Hd]. split; [|exact Hd].
  eapply invoke_err_skip; eauto. apply Hall in Hin. now destruct (is_error_handler h).
Qed.

(** The functions run are run in registration order. *)
Lemma invoke_ran r h : ran (invoke E now r h) = ran r \/ ran (invoke E now r h) = ran r ++ [h].
Proof.
  destruct (invoke_cases r h) as [-> | [(c & _ & _ & ->) | (e & c & _ & _ & ->)]];
    auto; right; unfold ran; simpl; now rewrite map_app.
Qed.

Lemma chain_ran fns : forall r,
  exists l, ran (fold_left (invoke E now) fns r) = ran r ++ l /\ sublist l fns.
Proof.
  induction fns as [|f fns IH]; intros r; simpl.
  - exists []. split; [now rewrite app_nil_r | constructor].
  - destruct (IH (invoke E now r f)) as (l & Hl & Hs). rewrite Hl.
    destruct (invoke_ran r f) as [-> | ->].
    + exists l. split; [reflexivity | now apply sublist_cons].
    + exists (f :: l). split; [now rewrite <- app_assoc | now apply sublist_skip].
Qed.

Lemma walk_ran stack : forall r,
  exists l, ran (walk E now rq stack r) = ran r ++ l /\ sublist l (registered stack).
Proof.
  induction stack as [|l stack IH]; intros r; simpl.
  - exists []. split; [now rewrite app_nil_r | constructor].
  - destruct (IH (layer_step E now rq r l)) as (l2 & H2 & S2).
    assert (H1 : exists l1, ran (layer_step E now rq r l) = ran r ++ l1
                            /\ sublist l1 (handlers_of l)).
    { destruct l as [mount fn | verb pattern fns]; simpl.
      - destruct (Express.use_match _ _).
        + apply (chain_ran [fn]).
        + exists []. split; [now rewrite app_nil_r | apply sublist_nil_l].
      - destruct (flow r) as [[e|] c|x];
          try (exists []; split; [now rewrite app_nil_r | apply sublist_nil_l]).
        destruct (_ && _).
        + apply chain_ran.
        + exists []. split; [now rewrite app_nil_r | apply sublist_nil_l]. }
    destruct H1 as (l1 & H1 & S1).
    exists (l1 ++ l2). split.
    + unfold walk in *. simpl fold_left. rewrite H2, H1. now rewrite <- app_assoc.
    + unfold registered. simpl. now apply sublist_app.
Qed.

(** Where an entry of the trace comes from. *)
Lemma trace_origin stack r h c :
  In (h, c) (trace (walk E now rq stack r)) ->
  In (h, c) (trace r) \/ In h (registered stack).
Proof.
  apply (walk_inv (fun r' => In (h, c) (trace r') ->
                            In (h, c) (trace r) \/ In h (registered stack))); [|auto].
  intros h' Hh' r' IH Hin.
  destruct (invoke_cases r' h') as [Heq | [(c' & _ & _ & Heq) | (e & c' & _ & _ & Heq)]];
    rewrite Heq in Hin; auto; simpl in Hin; apply in_app_or in Hin;
    destruct Hin as [|[Hx|[]]]; auto; injection Hx as -> ->; now right.
Qed.

End Walk.

(** ** Registration order *)
Section Order.
Import App Contract.

Lemma registered_stages_development E :
  development E = true -> registered_stages E = required_order.
Proof. intros H. unfold registered_stages, app. rewrite H. reflexivity. Qed.

Lemma registered_stages_otherwise E :
  development E = false ->
  registered_stages E
  = [StaticAssets; CrossOrigin; SecurityHeaders;
     RateLimiting; RawBodyPassthrough; BodyParsing; CookieParsing;
     InjectionSanitization; ScriptSanitization; PollutionGuard;
     ResponseCompression; ContextAnnotation; RouteDispatch;
     NotFoundFallback; TerminalError].
Proof. intros H. unfold registered_stages, app. rewrite H. reflexivity. Qed.

(** C2.  The stages that [app.js] registers are the stages of the contract
    in the contract's order: static assets, cross-origin policy, security
    headers, diagnostic logging (registered when NODE_ENV is development,
    the one stage that depends on the environment), rate limiting, the raw
    webhook route, body parsing, cookie parsing, injection sanitisation,
    script sanitisation, pollution guard, compression, context annotation,
    route dispatch with the routers in the order views, tours, users,
    reviews, bookings, the not-found fallback and the terminal error stage.
    For every request, the functions that run are run in that order. *)
Theorem stages_registered_in_required_order (E : Env) :
  registered_stages E = List.filter (enabled E) required_order
  /\ routers_of (registered (app E))
     = [viewRouter; tourRouter; userRouter; reviewRouter; bookingRouter]
  /\ forall now s rq, sublist (ran (handle E now s rq)) (registered (app E)).
Proof.
  split; [|split].
  - unfold registered_stages, app, enabled, required_order.
    destruct (development E); reflexivity.
  - unfold app. destruct (development E); reflexivity.
  - intros now s rq. unfold handle.
    destruct (walk_ran E now rq (app E) (start s rq)) as (l & Hl & Hs).
    rewrite Hl. exact Hs.
Qed.

End Order.

(** ** Which requests the limiter sees *)
Section Limited.
Import App Contract.
Variables (E : Env) (now : Z) (rq : Request).

Lemma call_store h s c : is_rateLimit h = false -> fst (call E now h s c) = s.
Proof. destruct h; simpl; intros H; try reflexivity; discriminate H. Qed.

Lemma invoke_skipped (p : Handler -> bool) r h a c :
  p h = false -> p a = true ->
  In (a, c) (trace (invoke E now r h)) -> In (a, c) (trace r).
Proof.
  intros Hh Ha Hin.
  destruct (invoke_cases E now r h) as [Heq | [(c' & _ & _ & Heq) | (e & c' & _ & _ & Heq)]];
    rewrite Heq in Hin; auto; simpl in Hin; apply in_app_or in Hin;
    destruct Hin as [|[Hx|[]]]; auto; injection Hx as -> ->; congruence.
Qed.

(** Functions in layers that do not match are not run. *)
Lemma walk_skips (p : Handler -> bool) stack r a c :
  skips p rq stack = true -> p a = true ->
  In (a, c) (trace (walk E now rq stack r)) -> In (a, c) (trace r).
Proof.
  intros Hs Ha. unfold skips in Hs. rewrite forallb_forall in Hs.
  apply (walk_inv_matched E now rq (fun r' => In (a, c) (trace r') -> In (a, c) (trace r)));
    [|auto].
  intros l Hl Hm h Hh r' IH Hin. apply IH.
  specialize (Hs l Hl). rewrite Hm in Hs. simpl in Hs. rewrite orb_false_r in Hs.
  rewrite forallb_forall in Hs. specialize (Hs h Hh).
  apply (invoke_skipped p r' h a c); auto. now destruct (p h).
Qed.

Lemma walk_store stack r :
  skips is_rateLimit rq stack = true -> store (walk E now rq stack r) = store r.
Proof.
  intros Hs. unfold skips in Hs. rewrite forallb_forall in Hs.
  apply (walk_inv_matched E now rq (fun r' => store r' = store r)); [|auto].
  intros l Hl Hm h Hh r' IH.
  specialize (Hs l Hl). rewrite Hm in Hs. simpl in Hs. rewrite orb_false_r in Hs.
  rewrite forallb_forall in Hs. specialize (Hs h Hh).
  destruct (invoke_cases E now r' h) as [-> | [(c' & _ & _ & ->) | (e & c' & _ & _ & ->)]];
    auto; simpl. rewrite call_store; [exact IH | now destruct (is_rateLimit h)].
Qed.

Lemma app_skips_limiter :
  Express.use_match "/api" (path rq) = false -> skips is_rateLimit rq (app E) = true.
Proof.
  intros H. unfold skips, app. destruct (development E); simpl; rewrite H; reflexivity.
Qed.

(** Outside the API prefix the limiter is not run: no hit is counted and no
    answer comes from it. *)
Lemma outside_api_not_limited s :
  Express.use_match "/api" (path rq) = false ->
  store (handle E now s rq) = s
  /\ forall o c, ~ In (rateLimit o, c) (trace (handle E now s rq)).
Proof.
  intros H. unfold handle. split.
  - rewrite walk_store; [reflexivity | now apply app_skips_limiter].
  - intros o c Hin.
    apply (walk_skips is_rateLimit) in Hin; auto using app_skips_limiter.
Qed.

End Limited.

(** C10.  A request to the payment-webhook path is never handed to the
    rate limiter, whatever the limiter has counted for its client: the
    limiter is mounted under '/api' only.  The store is left as it was and
    no function of the limiter runs, so the request cannot be answered with
    the limiter's 429. *)
Theorem webhook_never_rate_limited (E : Env) (now : Z) (s : RateLimit.Store) (rq : Request) :
  Express.verb_match "/webhook-checkout" (path rq) = true ->
  App.store (App.handle E now s rq) = s
  /\ forall o c, ~ In (App.rateLimit o, c) (App.trace (App.handle E now s rq)).
Proof.
  intros H. apply outside_api_not_limited.
  apply (webhook_not_under _ _ H); reflexivity.
Qed.

Lemma webhook_never_rate_limited_witness :
  Express.verb_match "/webhook-checkout" (path Sample.webhook_json) = true
  /\ App.store (App.handle Sample.env 0 Sample.exhausted Sample.webhook_json)
     = Sample.exhausted.
Proof.
  split; [reflexivity|].
  apply (webhook_never_rate_limited Sample.env 0 Sample.exhausted Sample.webhook_json).
  reflexivity.
Defined.

(** ** The limiter *)
Section Limiter.
Import App Contract.

Lemma expire_within o now s : (now < RateLimit.resetTime s)%Z -> RateLimit.expire o now s = s.
Proof.
  intros H. unfold RateLimit.expire.
  destruct (Z.leb_spec (RateLimit.resetTime s) now); [lia | reflexivity].
Qed.

Lemma totalHits_increment key s :
  RateLimit.totalHits key (RateLimit.increment key s) = RateLimit.totalHits key s + 1.
Proof. unfold RateLimit.totalHits at 1, RateLimit.increment. simpl. now rewrite lookup_insert_eq. Qed.

Lemma totalHits_increment_other key key' s :
  key <> key' ->
  RateLimit.totalHits key' (RateLimit.increment key s) = RateLimit.totalHits key' s.
Proof.
  intros H. unfold RateLimit.totalHits at 1, RateLimit.increment. simpl.
  now rewrite lookup_insert_ne.
Qed.




End Limiter.

(** ** Locating a function of the stack *)
Section Locate.
Import App Contract.
Variables (E : Env) (now : Z) (rq : Request).

(** A function that is registered once, alone in its layer, has run on
    [c] exactly when the walk reached its layer with [next()] carrying [c]
    and the layer matched. *)
Lemma entry_origin pre l h0 post r0 c :
  handlers_of l = [h0] -> is_error_handler h0 = false ->
  ~ In h0 (registered pre) -> ~ In h0 (registered post) ->
  (forall c', ~ In (h0, c') (trace r0)) ->
  In (h0, c) (trace (walk E now rq (pre ++ l :: post) r0)) ->
  flow (walk E now rq pre r0) = Go None c /\ layer_matches rq l = true.
Proof.
  intros Hl He Hpre Hpost H0 Hin. rewrite walk_app in Hin.
  set (r1 := walk E now rq pre r0) in *.
  assert (H1 : forall c', ~ In (h0, c') (trace r1)).
  { intros c' Hc. apply trace_origin in Hc. destruct Hc; [eapply H0; eauto | auto]. }
  change (walk E now rq (l :: post) r1)
    with (walk E now rq post (layer_step E now rq r1 l)) in Hin.
  apply trace_origin in Hin. destruct Hin as [Hin|]; [|contradiction].
  assert (Hstep : layer_step E now rq r1 l = r1
                  \/ (layer_matches rq l = true /\
                      layer_step E now rq r1 l = invoke E now r1 h0)).
  { destruct l as [mount fn | verb pattern fns]; simpl in Hl |- *.
    - injection Hl as ->. destruct (Express.use_match _ _); auto.
    - subst fns. destruct (flow r1) as [[e|] c'|x]; auto.
      destruct (_ && _); auto. }
  destruct Hstep as [Heq | [Hm Heq]]; rewrite Heq in Hin.
  - now apply H1 in Hin.
  - split; [|exact Hm].
    destruct (invoke_cases E now r1 h0)
      as [Hi | [(c' & Hf & _ & Hi) | (e & c' & _ & Hg & Hi)]]; rewrite Hi in Hin.
    + now apply H1 in Hin.
    + simpl in Hin. apply in_app_or in Hin. destruct Hin as [Hin|[Hx|[]]].
      * now apply H1 in Hin.
      * injection Hx as ->. exact Hf.
    + subst h0. discriminate He.
Qed.

End Locate.

(** ** What the functions leave untouched *)
Section Preserved.
Import App Contract.
Variables (E : Env) (now : Z) (rq : Request).

Ltac crunch :=
  repeat (simpl in *;
          unfold ServeStatic.serve, Cors.cors, RateLimit.rateLimit, BodyParser.raw,
            BodyParser.json, BodyParser.urlencoded, BodyParser.parser, settle,
            CookieParser.cookieParser, MongoSanitize.mongoSanitize, XssClean.xss,
            Hpp.hpp in *;
          try case_match; simplify_eq).

(** No function replaces the request itself. *)
Lemma call_req h s c : forall s' st c',
  call E now h s c = (s', st) ->
  (st = Next c' \/ exists e, st = NextErr e c') -> req c' = req c.
Proof.
  intros s' st c' Hc [Hs | [e Hs]]; subst st; destruct h; crunch; try reflexivity;
    unfold Hpp.guard; repeat case_match; reflexivity.
Qed.

Lemma walk_req stack s : forall e c,
  flow (walk E now rq stack (start s rq)) = Go e c -> req c = rq.
Proof.
  apply (walk_inv E now rq (fun r => forall e c, flow r = Go e c -> req c = rq)).
  - intros h _ r IH e c Hf.
    destruct (invoke_cases E now r h)
      as [Heq | [(c0 & Hf0 & _ & Heq) | (e0 & c0 & _ & _ & Heq)]]; rewrite Heq in Hf.
    + eauto.
    + simpl in Hf. rewrite <- (IH _ _ Hf0).
      destruct (call E now h (store r) c0) as [s' st] eqn:Hc. simpl in Hf.
      apply (call_req h (store r) c0 s' st c Hc).
      destruct st; simpl in Hf; simplify_eq; eauto.
    + discriminate Hf.
  - intros e c Hf. simpl in Hf. injection Hf as _ <-. reflexivity.
Qed.

(** The functions registered before the sanitisers leave query and
    parameters as they arrived, and only the webhook handler among them
    owns requests, which it never hands on. *)
Lemma front_inv stack s :
  forallb is_front (registered stack) = true ->
  forall c, flow (walk E now rq stack (start s rq)) = Go None c ->
  untouched rq c
  /\ forall h, In h (ran (walk E now rq stack (start s rq))) -> is_route_handler h = false.
Proof.
  intros Hall. rewrite forallb_forall in Hall.
  apply (walk_inv E now rq
           (fun r => forall c, flow r = Go None c ->
              untouched rq c /\ forall h, In h (ran r) -> is_route_handler h = false)).
  - intros h Hh r IH c Hf. specialize (Hall h Hh).
    destruct (invoke_cases E now r h)
      as [Heq | [(c0 & Hf0 & _ & Heq) | (e0 & c0 & _ & _ & Heq)]]; rewrite Heq in Hf |- *.
    + eauto.
    + destruct (IH _ Hf0) as [(U1 & U2 & U3 & U4 & U5) Hr]. simpl in Hf.
      destruct (call E now h (store r) c0) as [s' st] eqn:Hc. simpl in Hf.
      destruct st as [c'| |]; simpl in Hf; simplify_eq.
      split.
      * unfold untouched.
        destruct h; try discriminate Hall; crunch; auto.
      * intros h' Hin. unfold ran in Hin. simpl in Hin. rewrite map_app in Hin.
        apply in_app_or in Hin. destruct Hin as [Hin | [<- | []]]; [now apply Hr|].
        destruct h; try discriminate Hall; try reflexivity. crunch.
    + discriminate Hf.
  - intros c Hf. simpl in Hf. injection Hf as <-. split.
    + unfold untouched, arrive. simpl. auto.
    + intros h [].
Qed.

End Preserved.

(** ** Cutting the stack at a layer *)
Section Cut.
Import App Contract.

Lemma app_cut n E : app E = upto n E ++ beyond n E.
Proof. unfold upto, beyond. symmetry. apply firstn_skipn. Qed.

Lemma handle_cut n E now s rq :
  handle E now s rq
  = walk E now rq (beyond n E) (walk E now rq (upto n E) (start s rq)).
Proof. unfold handle. rewrite (app_cut n E) at 1. apply walk_app. Qed.

Lemma start_trace s rq h c : ~ In (h, c) (trace (start s rq)).
Proof. intros []. Qed.

End Cut.

(** Closes goals about which functions a cut of the stack holds. *)
Ltac cut_facts :=
  unfold Contract.upto, Contract.beyond, Contract.opening, App.app;
  try match goal with |- context [App.development ?E] => destruct (App.development E) end;
  simpl; try reflexivity; intuition discriminate.

(** ** Rate limiting *)
Section RateLimiting.
Import App Contract.
Variables (E : Env) (now : Z) (s : RateLimit.Store) (rq : Request).

Lemma limiter_entry c :
  In (limiter, c) (trace (handle E now s rq)) ->
  flow (walk E now rq (upto 0 E) (start s rq)) = Go None c
  /\ Express.use_match "/api" (path rq) = true.
Proof.
  intros Hin. unfold handle in Hin.
  replace (app E) with (upto 0 E ++ Use "/api" limiter :: beyond 1 E) in Hin
    by cut_facts.
  apply entry_origin with (h0 := limiter) in Hin; auto using start_trace; cut_facts.
Qed.


End RateLimiting.



(** ** Running the stack layer by layer *)
Section Steps.
Import App Contract.
Variables (E : Env) (now : Z) (rq : Request).

Lemma walk_cons l rest r :
  walk E now rq (l :: rest) r = walk E now rq rest (layer_step E now rq r l).
Proof. reflexivity. Qed.

Lemma walk_nil r : walk E now rq [] r = r.
Proof. reflexivity. Qed.

Lemma layer_skip r l : layer_matches rq l = false -> layer_step E now rq r l = r.
Proof.
  destruct l; simpl; intros ->; [reflexivity|]. now destruct (flow r) as [[]|].
Qed.

Lemma invoke_next s c t h :
  is_error_handler h = false ->
  invoke E now {| store := s; flow := Go None c; trace := t |} h
  = {| store := fst (call E now h s c); flow := flow_of (snd (call E now h s c));
       trace := t ++ [(h, c)] |}.
Proof. intros H. now apply invoke_go. Qed.

Lemma use_next mount h s c t :
  Express.use_match mount (path rq) = true -> is_error_handler h = false ->
  layer_step E now rq {| store := s; flow := Go None c; trace := t |} (Use mount h)
  = {| store := fst (call E now h s c); flow := flow_of (snd (call E now h s c));
       trace := t ++ [(h, c)] |}.
Proof. intros Hm H. simpl. rewrite Hm. now apply invoke_next. Qed.

Lemma route_next verb pattern fns s c t :
  Express.verb_match pattern (path rq) && handles_method verb (method rq) = true ->
  layer_step E now rq {| store := s; flow := Go None c; trace := t |} (Route verb pattern fns)
  = fold_left (invoke E now) fns {| store := s; flow := Go None c; trace := t |}.
Proof. intros Hm. simpl. now rewrite Hm. Qed.

(** The trace only grows. *)
Lemma walk_trace stack : forall r x, In x (trace r) -> In x (trace (walk E now rq stack r)).
Proof.
  intros r x Hin.
  apply (walk_inv E now rq (fun r' => In x (trace r'))); [|exact Hin].
  intros h _ r' IH.
  destruct (invoke_cases E now r' h) as [-> | [(c & _ & _ & ->) | (e & c & _ & _ & ->)]];
    auto; simpl; apply in_or_app; now left.
Qed.

(** With an error pending, the walk goes straight to the error handler that
    closes the stack. *)
Lemma walk_to_error_handler mid r e c :
  flow r = Go (Some e) c ->
  forallb (fun h => negb (is_error_handler h)) (registered mid) = true ->
  walk E now rq (mid ++ [Use "/" globalErrorHandler]) r
  = {| store := store r; flow := Done (errorController E e c);
       trace := trace r ++ [(globalErrorHandler, c)] |}.
Proof.
  intros Hf Hmid. rewrite walk_app, (walk_err_skip E now rq mid r e c Hf Hmid).
  simpl. unfold invoke. rewrite Hf. reflexivity.
Qed.

Lemma beyond_shape k :
  k <= 16 ->
  exists mid, beyond k E = mid ++ [Use "/" globalErrorHandler]
              /\ forallb (fun h => negb (is_error_handler h)) (registered mid) = true.
Proof.
  intros Hk. exists (removelast (beyond k E)).
  do 17 (destruct k as [|k];
         [unfold beyond, opening, app; destruct (development E); split; reflexivity|]).
  lia.
Qed.

(** Whatever cut of the stack an error is raised in, the request is
    answered by the terminal error handler, and by nothing else. *)
Lemma error_is_funneled k r e c :
  k <= 16 -> flow r = Go (Some e) c ->
  walk E now rq (beyond k E) r
  = {| store := store r; flow := Done (errorController E e c);
       trace := trace r ++ [(globalErrorHandler, c)] |}.
Proof.
  intros Hk Hf. destruct (beyond_shape k Hk) as (mid & -> & Hmid).
  now apply walk_to_error_handler.
Qed.

End Steps.

(** Evaluates the function just called, leaving the rest of the walk alone. *)
Ltac eval_call :=
  cbn -[App.walk App.layer_step App.invoke Express.use_match Express.verb_match
        BodyParser.default_limit BodyParser.kb Z.of_nat Z.ltb length
        Hpp.guard XssClean.clean_request MongoSanitize.sanitize_request].

(** Runs the next layer of the walk on a run whose flow is [Go None _];
    [facts] rewrites with what is known of the request's path. *)
Ltac step facts :=
  rewrite walk_cons;
  first
    [ rewrite layer_skip by (cbn [Contract.layer_matches path method]; facts; reflexivity)
    | rewrite use_next
        by (cbn [path method]; first [reflexivity | facts; reflexivity]);
      eval_call
    | rewrite route_next by (cbn [path method]; facts; reflexivity);
      cbn [fold_left]; repeat (rewrite invoke_next by reflexivity; eval_call) ].

(** ** The webhook route *)
Section Webhook.
Import App Contract.
Variables (E : Env) (now : Z) (s : RateLimit.Store).

Lemma ran_registered stack rq h :
  In h (ran (walk E now rq stack (start s rq))) -> In h (registered stack).
Proof.
  intros Hin. destruct (walk_ran E now rq stack (start s rq)) as (l & Hl & Hs).
  rewrite Hl in Hin. simpl in Hin.
  apply list_elem_of_In. apply list_elem_of_In in Hin. eapply elem_of_sublist; eauto.
Qed.

(** After a handler that answers or fails, only the error handler can run. *)
Lemma settled_tail k rq r x c :
  k <= 16 -> flow r = flow_of (settle x c) ->
  walk E now rq (beyond k E) r = r
  \/ exists e, flow r = Go (Some e) c
               /\ walk E now rq (beyond k E) r
                  = {| store := store r; flow := Done (errorController E e c);
                       trace := trace r ++ [(globalErrorHandler, c)] |}.
Proof.
  intros Hk Hf. destruct x as [resp|e]; simpl in Hf.
  - left. eapply walk_done; eauto.
  - right. exists e. split; [exact Hf|]. now apply error_is_funneled.
Qed.

(** A JSON POST to the webhook path, up to and including the webhook route. *)
Lemma webhook_run rq wire :
  Express.verb_match "/webhook-checkout" (path rq) = true ->
  method rq = POST ->
  contentType rq = Some "application/json" ->
  contentEncoding rq = identity ->
  rawBody rq = Some wire ->
  (Z.of_nat (length wire) <= BodyParser.default_limit)%Z ->
  exists c t,
    walk E now rq (upto 2 E) (start s rq)
    = {| store := s; flow := flow_of (settle (bookingController_webhookCheckout E c) c);
         trace := t |}
    /\ In (webhookCheckout, c) t /\ body c = BBuffer wire.
Proof.
  intros Hp Hm Ht He Hb Hl.
  pose proof (webhook_not_under _ "/api" Hp eq_refl eq_refl) as Hapi.
  destruct rq as [m url p q ip ct cs ce ck rb];
    cbn [method path contentType contentEncoding rawBody] in *; subst.
  assert (Hlim : (BodyParser.default_limit <? Z.of_nat (length wire))%Z = false)
    by (apply Z.ltb_ge; lia).
  unfold upto, opening, app, start.
  destruct (development E); cbn [firstn Nat.add List.app].
  - do 7 (step ltac:(rewrite ?use_match_root, ?verb_match_star, ?Hapi, ?Hp)).
    rewrite Hlim. eval_call. rewrite invoke_next by reflexivity. eval_call.
    rewrite walk_nil. eexists _, _. split; [reflexivity|]. split; [|reflexivity].
    simpl. auto 10.
  - do 6 (step ltac:(rewrite ?use_match_root, ?verb_match_star, ?Hapi, ?Hp)).
    rewrite Hlim. eval_call. rewrite invoke_next by reflexivity. eval_call.
    rewrite walk_nil. eexists _, _. split; [reflexivity|]. split; [|reflexivity].
    simpl. auto 10.
Qed.

(** Once the webhook handler has run, the request has seen no generic body
    parser and will see none. *)
Lemma webhook_then_no_parser rq c :
  In (webhookCheckout, c) (trace (handle E now s rq)) ->
  forall h, In h (ran (handle E now s rq)) -> stage_of h <> BodyParsing.
Proof.
  intros Hin h Hh. rewrite (handle_cut 2) in Hin, Hh.
  set (r1 := walk E now rq (upto 2 E) (start s rq)) in *.
  assert (Hfront : forallb is_front (registered (upto 2 E)) = true) by cut_facts.
  assert (Hreg : forall h, In h (registered (upto 2 E)) -> stage_of h <> BodyParsing).
  { unfold upto, opening, app. destruct (development E); simpl;
      intuition (subst; discriminate). }
  apply trace_origin in Hin. destruct Hin as [Hin|Hin]; [|revert Hin; cut_facts].
  assert (Hw : In webhookCheckout (ran r1)).
  { unfold ran. apply in_map_iff. exists (webhookCheckout, c). auto. }
  destruct (flow r1) as [[e|] c1|x] eqn:Hf.
  - rewrite (error_is_funneled E now rq 2 r1 e c1) in Hh by (auto; lia).
    unfold ran in Hh. simpl in Hh. rewrite map_app in Hh. apply in_app_or in Hh.
    destruct Hh as [Hh|[<-|[]]]; [|discriminate].
    apply Hreg. eapply ran_registered. exact Hh.
  - destruct (front_inv E now rq (upto 2 E) s Hfront c1 Hf) as [_ Hr].
    specialize (Hr _ Hw). discriminate Hr.
  - rewrite (walk_done E now rq (beyond 2 E) r1 x Hf) in Hh.
    apply Hreg. eapply ran_registered. exact Hh.
Qed.

End Webhook.

(** ** body-parser on a body of its own type *)
Section Parsers.
Variable E : Env.

(** What a parser does with a body of its own type that is sent as it is:
    over the limit it fails with 413, within the limit it parses. *)
Lemma parser_identity {A} type limit accept (parse : A -> Err + Body) c wire decoder :
  body_parsed c = false ->
  rawBody (req c) = Some wire ->
  contentType (req c) = Some type ->
  contentEncoding (req c) = identity ->
  accept (req c) = inr decoder ->
  BodyParser.parser E type limit accept parse c
  = let c0 := match body c with
              | BUndefined => set_body BodyParser.empty_object false c
              | _ => c
              end in
    if (limit <? Z.of_nat (length wire))%Z
    then NextErr (HttpError 413 "entity.too.large") (set_body (body c0) true c0)
    else match decoder with
         | None => NextErr BodyParser.unsupported_charset (set_body (body c0) true c0)
         | Some decode =>
             match parse (decode wire) with
             | inl e => NextErr e (set_body (body c0) true c0)
             | inr b => Next (set_body b true c0)
             end
         end.
Proof.
  intros Hp Hb Ht He Ha. unfold BodyParser.parser, BodyParser.type_is, BodyParser.read.
  rewrite Hp, Hb, Ht, He, Ha, String.eqb_refl. simpl.
  destruct (_ <? _)%Z; [reflexivity|]. destruct decoder; reflexivity.
Qed.

(** A parser that does not take the charset fails before it reads the
    body; the request is not flagged as parsed. *)
Lemma parser_rejected {A} type limit accept (parse : A -> Err + Body) c wire e :
  body_parsed c = false ->
  rawBody (req c) = Some wire ->
  contentType (req c) = Some type ->
  accept (req c) = inl e ->
  BodyParser.parser E type limit accept parse c
  = NextErr e (match body c with
               | BUndefined => set_body BodyParser.empty_object false c
               | _ => c
               end).
Proof.
  intros Hp Hb Ht Ha. unfold BodyParser.parser, BodyParser.type_is.
  now rewrite Hp, Hb, Ht, Ha, String.eqb_refl.
Qed.

(** A parser never answers the request itself. *)
Lemma parser_never_ends {A} type limit accept (parse : A -> Err + Body) c r :
  BodyParser.parser E type limit accept parse c <> End r.
Proof. unfold BodyParser.parser. repeat case_match; discriminate. Qed.


End Parsers.

(** ** Who is handled by the webhook route *)
Section WebhookScope.
Import App Contract.
Variables (E : Env) (now : Z) (s : RateLimit.Store) (rq : Request).

Lemma handles_post m : handles_method (Some POST) m = true -> m = POST.
Proof. destruct m; simpl; intros H; try reflexivity; discriminate H. Qed.

(** The functions of the webhook route run for POSTs to its path only. *)
Lemma raw_route_scope h c :
  is_raw_route h = true ->
  In (h, c) (trace (handle E now s rq)) ->
  method rq = POST /\ Express.verb_match "/webhook-checkout" (path rq) = true.
Proof.
  intros Hh Hin.
  destruct (Express.verb_match "/webhook-checkout" (path rq)
            && handles_method (Some POST) (method rq)) eqn:Hm.
  - apply andb_prop in Hm. destruct Hm as [Hp Hm]. split; [now apply handles_post | exact Hp].
  - exfalso. unfold handle in Hin.
    apply (walk_skips E now rq is_raw_route) in Hin; [destruct Hin | | exact Hh].
    unfold skips, app. destruct (development E);
      cbn -[Express.use_match Express.verb_match handles_method]; rewrite Hm; reflexivity.
Qed.

(** Before the webhook route nothing has touched the body. *)
Lemma opening_inv stack :
  forallb is_opening (registered stack) = true ->
  forall c, flow (walk E now rq stack (start s rq)) = Go None c ->
  body c = BUndefined /\ body_parsed c = false.
Proof.
  intros Hall. rewrite forallb_forall in Hall.
  apply (walk_inv E now rq (fun r => forall c, flow r = Go None c ->
                                      body c = BUndefined /\ body_parsed c = false)).
  - intros h Hh r IH c Hf. specialize (Hall h Hh).
    destruct (invoke_cases E now r h)
      as [Heq | [(c0 & Hf0 & _ & Heq) | (e0 & c0 & _ & _ & Heq)]]; rewrite Heq in Hf.
    + eauto.
    + specialize (IH _ Hf0). simpl in Hf.
      destruct h; try discriminate Hall; simpl in Hf;
        unfold ServeStatic.serve, Cors.cors, RateLimit.rateLimit in Hf;
        repeat case_match; simpl in Hf; simplify_eq; exact IH.
    + discriminate Hf.
  - intros c Hf. simpl in Hf. injection Hf as <-. split; reflexivity.
Qed.

(** The context that the handler is given is the one that the raw parser
    handed on, and the raw parser was given a request whose body nothing
    had touched. *)
Lemma webhook_entry c :
  In (webhookCheckout, c) (trace (handle E now s rq)) ->
  exists c0, req c0 = rq /\ body c0 = BUndefined /\ body_parsed c0 = false
             /\ BodyParser.raw E "application/json" c0 = Next c.
Proof.
  intros Hin. rewrite (handle_cut 2) in Hin.
  apply trace_origin in Hin. destruct Hin as [Hin|Hin]; [|revert Hin; cut_facts].
  replace (upto 2 E)
    with (upto 1 E ++ [Route (Some POST) "/webhook-checkout"
                         [express_raw "application/json"; webhookCheckout]]) in Hin
    by cut_facts.
  rewrite walk_app in Hin.
  set (r1 := walk E now rq (upto 1 E) (start s rq)) in *.
  assert (H1 : ~ In (webhookCheckout, c) (trace r1)).
  { intros Hc. apply trace_origin in Hc. destruct Hc as [[]|Hc]. revert Hc. cut_facts. }
  simpl in Hin.
  destruct (flow r1) as [[e|] c0|x] eqn:Hf; try contradiction.
  destruct (_ && _); [|contradiction].
  destruct (opening_inv (upto 1 E) ltac:(cut_facts) c0 Hf) as [Hb0 Hp0].
  assert (Hr0 : req c0 = rq) by (eapply walk_req; eauto).
  exists c0. repeat split; try assumption.
  simpl in Hin.
  rewrite (invoke_go E now r1 (express_raw "application/json") c0 Hf eq_refl) in Hin.
  simpl call in Hin. cbn [fst snd] in Hin.
  destruct (BodyParser.raw E "application/json" c0) as [c'|e c'|x] eqn:Hraw;
    simpl in Hin; unfold invoke in Hin; simpl in Hin.
  - apply in_app_or in Hin. destruct Hin as [Hin|[Hx|[]]].
    + apply in_app_or in Hin. destruct Hin as [Hin|[Hx|[]]]; [contradiction|discriminate].
    + now injection Hx as <-.
  - apply in_app_or in Hin. destruct Hin as [Hin|[Hx|[]]]; [contradiction|discriminate].
  - apply in_app_or in Hin. destruct Hin as [Hin|[Hx|[]]]; [contradiction|discriminate].
Qed.

(** The raw parser is given the query as it arrived, and leaves it. *)
Lemma webhook_query c :
  In (webhookCheckout, c) (trace (handle E now s rq)) -> cquery c = query rq.
Proof.
  intros Hin. rewrite (handle_cut 2) in Hin.
  apply trace_origin in Hin. destruct Hin as [Hin|Hin]; [|revert Hin; cut_facts].
  replace (upto 2 E)
    with (upto 1 E ++ [Route (Some POST) "/webhook-checkout"
                         [express_raw "application/json"; webhookCheckout]]) in Hin
    by cut_facts.
  rewrite walk_app in Hin.
  set (r1 := walk E now rq (upto 1 E) (start s rq)) in *.
  assert (H1 : ~ In (webhookCheckout, c) (trace r1)).
  { intros Hc. apply trace_origin in Hc. destruct Hc as [[]|Hc]. revert Hc. cut_facts. }
  simpl in Hin.
  destruct (flow r1) as [[e|] c0|x] eqn:Hf; try contradiction.
  destruct (_ && _); [|contradiction].
  destruct (front_inv E now rq (upto 1 E) s ltac:(cut_facts) c0 Hf)
    as [(_ & Hq & _) _].
  simpl in Hin.
  rewrite (invoke_go E now r1 (express_raw "application/json") c0 Hf eq_refl) in Hin.
  simpl call in Hin. cbn [fst snd] in Hin.
  destruct (BodyParser.raw E "application/json" c0) as [c'|e c'|x] eqn:Hraw;
    simpl in Hin; unfold invoke in Hin; simpl in Hin.
  - apply in_app_or in Hin. destruct Hin as [Hin|[Hx|[]]].
    + apply in_app_or in Hin. destruct Hin as [Hin|[Hx|[]]]; [contradiction|discriminate].
    + injection Hx as <-. rewrite <- Hq.
      unfold BodyParser.raw, BodyParser.parser in Hraw.
      repeat case_match; simplify_eq; reflexivity.
  - apply in_app_or in Hin. destruct Hin as [Hin|[Hx|[]]]; [contradiction|discriminate].
  - apply in_app_or in Hin. destruct Hin as [Hin|[Hx|[]]]; [contradiction|discriminate].
Qed.

(** The handler is given a [Buffer] only when the content type is the one
    the raw parser was set up for. *)
Lemma webhook_buffer_type c bytes :
  In (webhookCheckout, c) (trace (handle E now s rq)) ->
  body c = BBuffer bytes ->
  contentType rq = Some "application/json".
Proof.
  intros Hin Hb. destruct (webhook_entry c Hin) as (c0 & Hr0 & Hb0 & Hp0 & Hraw).
  unfold BodyParser.raw, BodyParser.parser in Hraw. rewrite Hb0, Hr0, Hp0 in Hraw.
  unfold BodyParser.type_is in Hraw.
  repeat case_match; simplify_eq; simpl in Hb; try discriminate.
  match goal with H : negb (String.eqb _ _) = false |- _ =>
    apply negb_false_iff, String.eqb_eq in H; now subst end.
Qed.

(** A JSON body sent as it is reaches the handler byte for byte. *)
Lemma webhook_json_body c wire :
  In (webhookCheckout, c) (trace (handle E now s rq)) ->
  contentType rq = Some "application/json" ->
  contentEncoding rq = identity ->
  rawBody rq = Some wire ->
  body c = BBuffer wire.
Proof.
  intros Hin Ht He Hw. destruct (webhook_entry c Hin) as (c0 & Hr0 & Hb0 & Hp0 & Hraw).
  unfold BodyParser.raw in Hraw.
  rewrite (parser_identity E _ _ _ _ c0 wire (Some (fun bytes => bytes))) in Hraw
    by (rewrite ?Hr0; first [assumption | reflexivity]).
  cbv zeta in Hraw. destruct (_ <? _)%Z; [discriminate|].
  injection Hraw as <-. reflexivity.
Qed.

End WebhookScope.

(** C1, as it is written, does not hold: a POST to the webhook path whose
    content type is not application/json reaches the handler with an empty
    object for a body, not with the bytes of the wire. *)
Lemma webhook_text_body_not_raw : ~ AsWritten.webhook_always_gets_wire_bytes.
Proof.
  intros H.
  specialize (H Sample.env 0%Z Sample.fresh Sample.webhook_text
                (Sample.with_body Sample.webhook_text BodyParser.empty_object false)
                Sample.event eq_refl eq_refl).
  assert (Hin : In (App.webhookCheckout,
                    Sample.with_body Sample.webhook_text BodyParser.empty_object false)
                   (App.trace (App.handle Sample.env 0 Sample.fresh Sample.webhook_text))).
  { vm_compute. auto 10. }
  specialize (H Hin). discriminate H.
Qed.

(** C1, amended.  The raw webhook route is registered before the generic
    body parsers, and no generic parser runs on a request that the webhook
    handler is given.  For every request to the webhook path whose content
    type is application/json and that is sent without content encoding, the
    body that reaches the webhook handler is byte for byte the body of the
    wire; and a POST of that kind does reach the handler when its body is
    within the raw parser's limit of 100 KB. *)
Theorem webhook_receives_raw_json_body (E : Env) :
  (exists pre post,
      App.app E
      = pre ++ App.Route (Some POST) "/webhook-checkout"
                 [App.express_raw "application/json"; App.webhookCheckout] :: post
      /\ (forall h, In h (Contract.registered pre) ->
                    Contract.stage_of h <> Contract.BodyParsing)
      /\ In (App.Use "/" (App.express_json (BodyParser.kb 10))) post
      /\ In (App.Use "/" (App.express_urlencoded true (BodyParser.kb 10))) post)
  /\ (forall now s rq c,
        In (App.webhookCheckout, c) (App.trace (App.handle E now s rq)) ->
        forall h, In h (App.ran (App.handle E now s rq)) ->
                  Contract.stage_of h <> Contract.BodyParsing)
  /\ (forall now s rq c wire,
        In (App.webhookCheckout, c) (App.trace (App.handle E now s rq)) ->
        contentType rq = Some "application/json" ->
        contentEncoding rq = identity ->
        rawBody rq = Some wire ->
        body c = BBuffer wire)
  /\ (forall now s rq wire,
        Express.verb_match "/webhook-checkout" (path rq) = true ->
        method rq = POST ->
        contentType rq = Some "application/json" ->
        contentEncoding rq = identity ->
        rawBody rq = Some wire ->
        (Z.of_nat (length wire) <= BodyParser.default_limit)%Z ->
        exists c, In (App.webhookCheckout, c) (App.trace (App.handle E now s rq))).
Proof.
  split; [|split; [|split]].
  - exists (Contract.upto 1 E), (Contract.beyond 2 E). split; [|split; [|split]].
    + rewrite (app_cut 1 E) at 1. f_equal. cut_facts.
    + unfold Contract.upto, Contract.opening, App.app.
      destruct (App.development E); simpl; intuition (subst; discriminate).
    + cut_facts.
    + cut_facts.
  - intros now s rq c. apply webhook_then_no_parser.
  - intros now s rq c wire. apply webhook_json_body.
  - intros now s rq wire Hp Hm Ht He Hb Hl.
    destruct (webhook_run E now s rq wire Hp Hm Ht He Hb Hl) as (c & t & Hr & Hin & _).
    exists c. rewrite (handle_cut 2). apply walk_trace. rewrite Hr. exact Hin.
Qed.

Lemma webhook_receives_raw_json_body_witness :
  (forall h, In h (App.ran (App.handle Sample.env 0 Sample.fresh Sample.webhook_text)) ->
             Contract.stage_of h <> Contract.BodyParsing)
  /\ body (Sample.with_body Sample.webhook_json (BBuffer Sample.event) true)
     = BBuffer Sample.event
  /\ exists c, In (App.webhookCheckout, c)
                  (App.trace (App.handle Sample.env 0 Sample.fresh Sample.webhook_json)).
Proof.
  pose proof (webhook_receives_raw_json_body Sample.env) as (_ & H2 & H3 & H4).
  split; [|split].
  - apply (H2 0%Z Sample.fresh Sample.webhook_text
              (Sample.with_body Sample.webhook_text BodyParser.empty_object false)).
    vm_compute. auto 10.
  - apply (H3 0%Z Sample.fresh Sample.webhook_json
              (Sample.with_body Sample.webhook_json (BBuffer Sample.event) true)
              Sample.event); [vm_compute; auto 10 | reflexivity ..].
  - apply (H4 0%Z Sample.fresh Sample.webhook_json Sample.event); try reflexivity.
    vm_compute. discriminate.
Defined.

(** ** Other methods on the webhook path *)
Section OtherMethods.
Import App Contract.
Variables (E : Env) (now : Z) (s : RateLimit.Store) (rq : Request).
Hypothesis Hpath : Express.verb_match "/webhook-checkout" (path rq) = true.
Hypothesis Hpost : method rq <> POST.
Hypothesis Hoptions : method rq <> OPTIONS.
Hypothesis Hstatic : method rq = GET \/ method rq = HEAD -> public_send E rq = None.

Lemma other_method_static : ServeStatic.serve E (arrive rq) = Next (arrive rq).
Proof.
  unfold ServeStatic.serve. cbn [req arrive].
  destruct (method rq) eqn:Hm; try reflexivity; rewrite Hstatic by auto; reflexivity.
Qed.

(** The request passes the opening stages and the webhook route. *)
Lemma other_method_opening :
  exists t,
    walk E now rq (upto 2 E) (start s rq)
    = {| store := s; flow := Go None (opened E rq); trace := t |}
    /\ map fst t = opening_fns E.
Proof.
  pose proof (webhook_not_under _ "/api" Hpath eq_refl eq_refl) as Hapi.
  pose proof other_method_static as Hs.
  unfold upto, opening, opening_fns, app, start, opened.
  destruct (development E); cbn [firstn Nat.add List.app];
    rewrite walk_cons, use_next by reflexivity; cbn [call fst snd]; rewrite Hs;
    cbn [flow_of];
    destruct rq as [m url p q ip ct cs ce ck rb]; cbn [method path] in *;
    destruct m; try congruence;
    repeat (step ltac:(rewrite ?use_match_root, ?verb_match_star, ?Hapi, ?Hpath));
    rewrite walk_nil; eexists; split; reflexivity.
Qed.

(** The run, cut after the JSON parser. *)
Lemma other_method_json :
  exists t,
    map fst t = opening_fns E
    /\ handle E now s rq
       = walk E now rq (beyond 3 E)
           {| store := s;
              flow := flow_of (BodyParser.json E (BodyParser.kb 10) (opened E rq));
              trace := t ++ [(express_json (BodyParser.kb 10), opened E rq)] |}.
Proof.
  destruct other_method_opening as (t & Hr & Ht). exists t. split; [exact Ht|].
  rewrite (handle_cut 2), Hr.
  replace (beyond 2 E) with (Use "/" (express_json (BodyParser.kb 10)) :: beyond 3 E)
    by cut_facts.
  now rewrite walk_cons, use_next by reflexivity.
Qed.

Lemma other_method_reaches_json :
  In (express_json (BodyParser.kb 10), opened E rq) (trace (handle E now s rq)).
Proof.
  destruct other_method_json as (t & _ & ->).
  apply walk_trace. simpl. apply in_or_app. right. now left.
Qed.

(** The JSON parser fails: the error handler answers. *)
Lemma other_method_json_fails e c1 :
  BodyParser.json E (BodyParser.kb 10) (opened E rq) = NextErr e c1 ->
  ran (handle E now s rq)
  = opening_fns E ++ [express_json (BodyParser.kb 10); globalErrorHandler]
  /\ flow (handle E now s rq) = Done (errorController E e c1).
Proof.
  intros Hj. destruct other_method_json as (t & Ht & ->). rewrite Hj.
  rewrite error_is_funneled with (e := e) (c := c1) by (auto; lia).
  split; [|reflexivity]. unfold ran. simpl. rewrite !map_app, Ht. simpl.
  now rewrite <- app_assoc.
Qed.

(** The JSON parser hands the request on: the URL-encoded parser is next. *)
Lemma other_method_urlencoded c1 :
  BodyParser.json E (BodyParser.kb 10) (opened E rq) = Next c1 ->
  exists t,
    map fst t = opening_fns E ++ [express_json (BodyParser.kb 10)]
    /\ handle E now s rq
       = walk E now rq (beyond 4 E)
           {| store := s;
              flow := flow_of (BodyParser.urlencoded E (BodyParser.kb 10) c1);
              trace := t ++ [(express_urlencoded true (BodyParser.kb 10), c1)] |}.
Proof.
  intros Hj. destruct other_method_json as (t & Ht & ->). rewrite Hj.
  eexists. split; [|].
  2:{ replace (beyond 3 E)
        with (Use "/" (express_urlencoded true (BodyParser.kb 10)) :: beyond 4 E)
        by cut_facts.
      rewrite walk_cons. cbn [flow_of]. rewrite use_next by reflexivity. reflexivity. }
  rewrite map_app, Ht. reflexivity.
Qed.

Lemma other_method_urlencoded_fails c1 e c2 :
  BodyParser.json E (BodyParser.kb 10) (opened E rq) = Next c1 ->
  BodyParser.urlencoded E (BodyParser.kb 10) c1 = NextErr e c2 ->
  ran (handle E now s rq)
  = opening_fns E ++ [express_json (BodyParser.kb 10);
                      express_urlencoded true (BodyParser.kb 10); globalErrorHandler]
  /\ flow (handle E now s rq) = Done (errorController E e c2).
Proof.
  intros Hj Hu. destruct (other_method_urlencoded c1 Hj) as (t & Ht & ->).
  cbn [call fst snd]. rewrite Hu.
  rewrite error_is_funneled with (e := e) (c := c2) by (auto; lia).
  split; [|reflexivity]. unfold ran. simpl. rewrite !map_app, Ht. simpl.
  now rewrite <- !app_assoc.
Qed.

(** Both parsers hand the request on: it passes every stage up to the view
    router. *)
Lemma other_method_passes c1 c2 :
  BodyParser.json E (BodyParser.kb 10) (opened E rq) = Next c1 ->
  BodyParser.urlencoded E (BodyParser.kb 10) c1 = Next c2 ->
  exists rest, ran (handle E now s rq) = opening_fns E ++ parsers_to_views ++ rest.
Proof.
  intros Hj Hu. destruct (other_method_urlencoded c1 Hj) as (t & Ht & ->).
  cbn [call fst snd]. rewrite Hu. cbn [flow_of].
  replace (beyond 4 E)
    with ([Use "/" cookieParser; Use "/" mongoSanitize; Use "/" xss;
           Use "/" (hpp hpp_whitelist); Use "/" compression; Use "/" testMiddleware;
           Use "/" (router viewRouter)] ++ beyond 11 E)
    by cut_facts.
  rewrite walk_app.
  rewrite walk_cons, use_next by reflexivity. cbn [call fst snd].
  assert (Hck : exists c3, CookieParser.cookieParser E c2 = Next c3)
    by (unfold CookieParser.cookieParser; destruct (cookies c2); eauto).
  destruct Hck as (c3 & ->). cbn [flow_of].
  do 5 (step idtac). rewrite walk_cons, use_next by reflexivity. rewrite walk_nil.
  match goal with |- context [walk E now rq (beyond 11 E) ?r] =>
    destruct (walk_ran E now rq (beyond 11 E) r) as (l & Hl & _) end.
  exists l. rewrite Hl. unfold ran. simpl. rewrite !map_app, Ht. simpl.
  now rewrite <- !app_assoc.
Qed.

(** Without a body both parsers hand the request on. *)
Lemma other_method_bodiless :
  rawBody rq = None ->
  exists rest, ran (handle E now s rq) = opening_fns E ++ parsers_to_views ++ rest.
Proof.
  intros Hb.
  apply (other_method_passes (set_body BodyParser.empty_object false (opened E rq))
           (set_body BodyParser.empty_object false (opened E rq))).
  - unfold BodyParser.json, BodyParser.parser. cbn [body_parsed body req opened add_headers arrive].
    now rewrite Hb.
  - unfold BodyParser.urlencoded, BodyParser.parser.
    cbn [body_parsed body req opened add_headers arrive set_body].
    now rewrite Hb.
Qed.

(** A JSON body over the limit stops at the JSON parser. *)
Lemma other_method_too_large wire :
  contentType rq = Some "application/json" ->
  Express.strip_prefix "utf-" (BodyParser.getCharset rq) <> None ->
  contentEncoding rq = identity ->
  rawBody rq = Some wire ->
  (BodyParser.kb 10 < Z.of_nat (length wire))%Z ->
  ran (handle E now s rq)
  = opening_fns E ++ [express_json (BodyParser.kb 10); globalErrorHandler]
  /\ flow (handle E now s rq)
     = Done (errorController E (HttpError 413 "entity.too.large")
               (set_body BodyParser.empty_object true (opened E rq))).
Proof.
  intros Ht Hcs He Hb Hl. apply other_method_json_fails.
  unfold BodyParser.json.
  destruct (Express.strip_prefix "utf-" (BodyParser.getCharset rq)) as [x|] eqn:Hx;
    [|contradiction].
  rewrite (parser_identity E _ _ _ _ (opened E rq) wire
             (iconv_decode E (BodyParser.getCharset rq)));
    try assumption; try reflexivity.
  - cbv zeta. destruct (Z.ltb_spec (BodyParser.kb 10) (Z.of_nat (length wire))); [|lia].
    reflexivity.
  - unfold BodyParser.accept_json. cbn [req opened add_headers arrive]. now rewrite Hx.
Qed.

End OtherMethods.

(** C9, as it is written, does not hold: a preflight (OPTIONS) request to
    the webhook path is answered by the cross-origin stage and never
    reaches the generic body parsers. *)
Lemma webhook_preflight_stops_at_cors : ~ AsWritten.other_methods_reach_body_parsers.
Proof.
  intros H.
  specialize (H Sample.env 0%Z Sample.fresh Sample.webhook_preflight eq_refl).
  assert (Hm : method Sample.webhook_preflight <> POST) by discriminate.
  specialize (H Hm). vm_compute in H. intuition discriminate.
Qed.

(** C9, amended.  The functions of the webhook route run only for POST
    requests to '/webhook-checkout', and the handler is given a raw
    [Buffer] only when the content type is application/json.  A request to
    that path with another method is never handled by the webhook route.
    Unless it is a preflight (OPTIONS), which the cross-origin stage
    answers, or express.static answers it, it is handed to the generic JSON
    parser with its body untouched, like a request to any other path.  If
    the JSON parser, or after it the URL-encoded parser, rejects the body,
    the error goes straight to the terminal error stage, which answers, and
    no other stage runs; so it is for a JSON body of more than 10 KB.
    Otherwise (a parser hands on or fails, it never answers) the request
    passes both parsers and every stage up to the view router; so it is
    for a request without a body. *)
Theorem webhook_route_scope (E : Env) :
  (forall now s rq h c,
      Contract.is_raw_route h = true ->
      In (h, c) (App.trace (App.handle E now s rq)) ->
      method rq = POST /\ Express.verb_match "/webhook-checkout" (path rq) = true)
  /\ (forall now s rq c bytes,
        In (App.webhookCheckout, c) (App.trace (App.handle E now s rq)) ->
        body c = BBuffer bytes ->
        contentType rq = Some "application/json")
  /\ (forall now s rq,
        method rq <> POST ->
        forall h c, Contract.is_raw_route h = true ->
                    ~ In (h, c) (App.trace (App.handle E now s rq)))
  /\ (forall now s rq,
        Express.verb_match "/webhook-checkout" (path rq) = true ->
        method rq <> POST -> method rq <> OPTIONS ->
        (method rq = GET \/ method rq = HEAD -> public_send E rq = None) ->
        In (App.express_json (BodyParser.kb 10), Contract.opened E rq)
           (App.trace (App.handle E now s rq))
        /\ (forall e c1,
              BodyParser.json E (BodyParser.kb 10) (Contract.opened E rq) = NextErr e c1 ->
              App.ran (App.handle E now s rq)
              = Contract.opening_fns E
                ++ [App.express_json (BodyParser.kb 10); App.globalErrorHandler]
              /\ App.flow (App.handle E now s rq) = App.Done (errorController E e c1))
        /\ (forall c1,
              BodyParser.json E (BodyParser.kb 10) (Contract.opened E rq) = Next c1 ->
              (forall e c2,
                  BodyParser.urlencoded E (BodyParser.kb 10) c1 = NextErr e c2 ->
                  App.ran (App.handle E now s rq)
                  = Contract.opening_fns E
                    ++ [App.express_json (BodyParser.kb 10);
                        App.express_urlencoded true (BodyParser.kb 10);
                        App.globalErrorHandler]
                  /\ App.flow (App.handle E now s rq) = App.Done (errorController E e c2))
              /\ (forall c2,
                    BodyParser.urlencoded E (BodyParser.kb 10) c1 = Next c2 ->
                    exists rest,
                      App.ran (App.handle E now s rq)
                      = Contract.opening_fns E ++ Contract.parsers_to_views ++ rest))
        /\ (rawBody rq = None ->
            exists rest,
              App.ran (App.handle E now s rq)
              = Contract.opening_fns E ++ Contract.parsers_to_views ++ rest)
        /\ (forall wire,
              contentType rq = Some "application/json" ->
              Express.strip_prefix "utf-" (BodyParser.getCharset rq) <> None ->
              contentEncoding rq = identity ->
              rawBody rq = Some wire ->
              (BodyParser.kb 10 < Z.of_nat (length wire))%Z ->
              App.ran (App.handle E now s rq)
              = Contract.opening_fns E
                ++ [App.express_json (BodyParser.kb 10); App.globalErrorHandler]
              /\ App.flow (App.handle E now s rq)
                 = App.Done (errorController E (HttpError 413 "entity.too.large")
                               (set_body BodyParser.empty_object true
                                  (Contract.opened E rq)))))
  /\ (forall c r,
        BodyParser.json E (BodyParser.kb 10) c <> End r
        /\ BodyParser.urlencoded E (BodyParser.kb 10) c <> End r).
Proof.
  split; [|split; [|split; [|split]]];
    [| | | | intros c r; split; apply parser_never_ends].
  - intros now s rq h c. apply raw_route_scope.
  - intros now s rq c bytes. apply webhook_buffer_type.
  - intros now s rq Hpost h c Hh Hin.
    apply (raw_route_scope E now s rq h c Hh) in Hin. destruct Hin. contradiction.
  - intros now s rq Hp Hpost Hopt Hst. split; [|split; [|split; [|split]]].
    + now apply other_method_reaches_json.
    + intros e c1. now apply other_method_json_fails.
    + intros c1 Hj. split.
      * intros e c2. now apply other_method_urlencoded_fails.
      * intros c2. now apply other_method_passes.
    + now apply other_method_bodiless.
    + intros wire. now apply other_method_too_large.
Qed.

Lemma webhook_route_scope_witness :
  (method Sample.webhook_json = POST
   /\ Express.verb_match "/webhook-checkout" (path Sample.webhook_json) = true)
  /\ contentType Sample.webhook_json = Some "application/json"
  /\ ~ In (App.webhookCheckout, arrive Sample.webhook_put)
          (App.trace (App.handle Sample.env 0 Sample.fresh Sample.webhook_put))
  /\ (exists rest,
         App.ran (App.handle Sample.env 0 Sample.fresh Sample.webhook_get)
         = Contract.opening_fns Sample.env ++ Contract.parsers_to_views ++ rest)
  /\ App.ran (App.handle Sample.env 0 Sample.fresh Sample.webhook_put)
     = Contract.opening_fns Sample.env
       ++ [App.express_json (BodyParser.kb 10); App.globalErrorHandler].
Proof.
  pose proof (webhook_route_scope Sample.env) as (H1 & H2 & H3 & H4 & _).
  assert (Hin : In (App.webhookCheckout,
                    Sample.with_body Sample.webhook_json (BBuffer Sample.event) true)
                   (App.trace (App.handle Sample.env 0 Sample.fresh Sample.webhook_json))).
  { vm_compute. auto 10. }
  split; [|split; [|split; [|split]]].
  - exact (H1 0%Z Sample.fresh Sample.webhook_json App.webhookCheckout _ eq_refl Hin).
  - exact (H2 0%Z Sample.fresh Sample.webhook_json _ Sample.event Hin eq_refl).
  - apply (H3 0%Z Sample.fresh Sample.webhook_put); [discriminate | reflexivity].
  - apply (H4 0%Z Sample.fresh Sample.webhook_get); try reflexivity; discriminate.
  - apply (H4 0%Z Sample.fresh Sample.webhook_put eq_refl) with (wire := Sample.big);
      try reflexivity; discriminate.
Defined.

(** ** The generic body parsers *)
Section BodyLimit.
Import App Contract.
Variables (E : Env) (now : Z) (s : RateLimit.Store) (rq : Request).









Lemma strict_nonempty t : BodyParser.strict t = true -> t <> EmptyString.
Proof. intros H ->. discriminate H. Qed.


End BodyLimit.

Section FormLimit.
Import App Contract.
Variables (E : Env) (now : Z) (s : RateLimit.Store) (rq : Request).
Hypothesis Hform : contentType rq = Some "application/x-www-form-urlencoded".







End FormLimit.

(** ** The closing layers *)
Section Answered.
Import App Contract.
Variables (E : Env) (now : Z) (s : RateLimit.Store) (rq : Request).

(** The last two layers: the fallback turns [next()] into a 404 error, the
    error handler answers whatever error is pending. *)
Lemma closing_layers st c t :
  walk E now rq (beyond 15 E) {| store := st; flow := Go None c; trace := t |}
  = {| store := st;
       flow := Done (errorController E
                       (AppError ("Cannot find " +:+ originalUrl (req c) +:+ " on this server")
                          404) c);
       trace := (t ++ [(unhandledRoute, c)]) ++ [(globalErrorHandler, c)] |}.
Proof.
  replace (beyond 15 E) with [Route None "*" [unhandledRoute]; Use "/" globalErrorHandler]
    by cut_facts.
  rewrite walk_cons, route_next by reflexivity. cbn [fold_left].
  rewrite invoke_next by reflexivity. eval_call.
  rewrite walk_cons, walk_nil. reflexivity.
Qed.

End Answered.




(** ** The not-found fallback *)
Section Fallback.
Import App Contract.
Variables (E : Env) (now : Z) (s : RateLimit.Store) (rq : Request).

Lemma fallback_entry c :
  In (unhandledRoute, c) (trace (handle E now s rq)) ->
  flow (walk E now rq (upto 15 E) (start s rq)) = Go None c.
Proof.
  intros Hin. unfold handle in Hin.
  replace (app E)
    with (upto 15 E ++ Route None "*" [unhandledRoute] :: [Use "/" globalErrorHandler])
    in Hin by cut_facts.
  apply entry_origin with (h0 := unhandledRoute) in Hin;
    auto using start_trace; try tauto; cut_facts.
Qed.

Lemma fallback_run c :
  flow (walk E now rq (upto 15 E) (start s rq)) = Go None c ->
  req c = rq
  /\ flow (handle E now s rq)
     = Done (errorController E
               (AppError ("Cannot find " +:+ originalUrl rq +:+ " on this server") 404) c)
  /\ exists t, trace (handle E now s rq)
               = t ++ [(unhandledRoute, c); (globalErrorHandler, c)].
Proof.
  intros Hf. assert (Hr : req c = rq) by (eapply walk_req; eauto).
  split; [exact Hr|]. rewrite (handle_cut 15).
  destruct (walk E now rq (upto 15 E) (start s rq)) as [st fl t]. simpl in Hf. subst fl.
  rewrite closing_layers, Hr. split; [reflexivity|].
  exists t. simpl. now rewrite <- app_assoc.
Qed.

End Fallback.

(** C6, as it is written, does not hold: a preflight (OPTIONS) request for
    a path that no router knows is answered with 204 by the cross-origin
    stage; it never reaches the fallback. *)
Lemma preflight_nowhere_is_not_404 : ~ AsWritten.unmatched_request_gets_not_found.
Proof.
  intros H.
  specialize (H Sample.env 0%Z Sample.fresh Sample.preflight_nowhere).
  destruct H as [c Hc].
  - intros r c Hreq. destruct r; simpl; try reflexivity. now rewrite Hreq.
  - vm_compute in Hc. discriminate Hc.
Qed.

(** C6, amended.  For every request that is handed to the not-found
    fallback, that is, a request that no earlier stage has answered or
    failed and that no router has taken, the fallback raises a client error
    with status 404 whose message echoes the requested URL ("Cannot find
    <originalUrl> on this server"); the fallback does not answer itself:
    the error is passed to the terminal error stage, which runs next and
    produces the response. *)
Theorem unmatched_route_funneled_to_error_stage (E : Env) (now : Z)
    (s : RateLimit.Store) (rq : Request) (c : Ctx) :
  In (App.unhandledRoute, c) (App.trace (App.handle E now s rq)) ->
  App.call E now App.unhandledRoute s c
  = (s, NextErr (AppError ("Cannot find " +:+ originalUrl rq +:+ " on this server") 404) c)
  /\ App.flow (App.handle E now s rq)
     = App.Done (errorController E
                   (AppError ("Cannot find " +:+ originalUrl rq +:+ " on this server") 404) c)
  /\ exists t, App.trace (App.handle E now s rq)
               = t ++ [(App.unhandledRoute, c); (App.globalErrorHandler, c)].
Proof.
  intros Hin. apply fallback_entry in Hin.
  destruct (fallback_run E now s rq c Hin) as (Hr & Hf & Ht).
  split; [|split; assumption]. simpl. now rewrite Hr.
Qed.

Lemma unmatched_route_funneled_to_error_stage_witness :
  App.flow (App.handle Sample.env 0 Sample.fresh Sample.nowhere)
  = App.Done {| status := 404;
                payload := PText "Cannot find /api/v1/nowhere?$gt=1 on this server" |}.
Proof.
  refine (proj1 (proj2 (unmatched_route_funneled_to_error_stage
                          Sample.env 0%Z Sample.fresh Sample.nowhere
                          (Contract.after_guards
                             (set_cookies []
                                (Sample.with_body Sample.nowhere BodyParser.empty_object false)))
                          _))).
  vm_compute. auto 30.
Defined.

(** ** Sanitisation *)
Section Sanitised.
Import App Contract Wiring.

Lemma JValue_induction (P : JValue -> Prop) :
  P JUndefined -> P JNull -> (forall b, P (JBool b)) -> (forall n, P (JNum n)) ->
  (forall t, P (JStr t)) ->
  (forall items, Forall P items -> P (JArr items)) ->
  (forall props, Forall (fun kv => P (snd kv)) props -> P (JObj props)) ->
  forall v, P v.
Proof.
  intros Hu Hn Hb Hnum Hs Ha Ho.
  fix IH 1.
  intros [ | | b | n | t | items | props];
    [exact Hu | exact Hn | apply Hb | apply Hnum | apply Hs | | ].
  - apply Ha.
    exact ((fix all (l : list JValue) : Forall P l :=
              match l with
              | [] => @List.Forall_nil _ P
              | x :: r => @List.Forall_cons _ P x r (IH x) (all r)
              end) items).
  - apply Ho.
    exact ((fix all (l : list (string * JValue)) : Forall (fun kv => P (snd kv)) l :=
              match l with
              | [] => @List.Forall_nil _ _
              | kv :: r => @List.Forall_cons _ _ kv r (IH (snd kv)) (all r)
              end) props).
Qed.

(** *** The three tests, property by property *)

Lemma has_operator_key_obj props :
  has_operator_key (JObj props) = existsb names_operator props.
Proof.
  induction props as [|[k x] props IH]; [reflexivity|].
  simpl in IH |- *. unfold names_operator at 1. simpl. now rewrite IH.
Qed.

Lemma has_markup_obj props : has_markup (JObj props) = existsb names_markup props.
Proof.
  induction props as [|[k x] props IH]; [reflexivity|].
  simpl in IH |- *. unfold names_markup at 1. simpl. now rewrite IH.
Qed.

Lemma has_flagged_key_obj props :
  has_flagged_key (JObj props) = existsb names_flagged props.
Proof.
  induction props as [|[k x] props IH]; [reflexivity|].
  simpl in IH |- *. unfold names_flagged at 1. simpl. now rewrite IH.
Qed.

Lemma existsb_none {A} (f : A -> bool) l :
  existsb f l = false <-> forall x, In x l -> f x = false.
Proof.
  split.
  - intros H x Hx. destruct (f x) eqn:Hf; [|reflexivity].
    rewrite <- H. symmetry. apply existsb_exists. eauto.
  - intros H. destruct (existsb f l) eqn:He; [|reflexivity].
    apply existsb_exists in He. destruct He as (x & Hx & Hf). now rewrite (H x Hx) in Hf.
Qed.

(** *** express-mongo-sanitize *)

(** What is left by express-mongo-sanitize has no operator key. *)
Lemma sanitize_operator_free v : has_operator_key (MongoSanitize.sanitize v) = false.
Proof.
  induction v as [ | | b | n | t | items IH | props IH] using JValue_induction;
    try reflexivity.
  - simpl. induction IH as [|x items Hx _ IHi]; simpl; [reflexivity|].
    now rewrite Hx, IHi.
  - simpl. induction IH as [|[k x] props Hx _ IHp]; simpl; [reflexivity|].
    destruct (MongoSanitize.TEST_REGEX k) eqn:Hk; [exact IHp|].
    apply orb_false_iff in Hk. destruct Hk as [Hk _].
    simpl in Hx |- *. now rewrite Hk, Hx, IHp.
Qed.

(** It leaves no key that its pattern matches. *)
Lemma sanitize_no_flagged_key v : has_flagged_key (MongoSanitize.sanitize v) = false.
Proof.
  induction v as [ | | b | n | t | items IH | props IH] using JValue_induction;
    try reflexivity.
  - simpl. induction IH as [|x items Hx _ IHi]; simpl; [reflexivity|].
    now rewrite Hx, IHi.
  - simpl. induction IH as [|[k x] props Hx _ IHp]; simpl; [reflexivity|].
    destruct (MongoSanitize.TEST_REGEX k) eqn:Hk; [exact IHp|].
    simpl in Hx |- *. now rewrite Hk, Hx, IHp.
Qed.

(** It leaves alone what has no such key. *)
Lemma sanitize_same v : has_flagged_key v = false -> MongoSanitize.sanitize v = v.
Proof.
  induction v as [ | | b | n | t | items IH | props IH] using JValue_induction;
    try reflexivity.
  - simpl. intros H. f_equal.
    induction IH as [|x items Hx _ IHi]; simpl; [reflexivity|].
    simpl in H. apply orb_false_iff in H. destruct H as [H1 H2].
    now rewrite Hx, IHi.
  - simpl. intros H. f_equal.
    induction IH as [|[k x] props Hx _ IHp]; simpl; [reflexivity|].
    apply orb_false_iff in H. destruct H as [H1 H2].
    apply orb_false_iff in H1. destruct H1 as [H0 H1].
    simpl in Hx. now rewrite H0, Hx, IHp.
Qed.

(** *** Escaping *)

Lemma inHTMLData_dollar k :
  MongoSanitize.starts_with_dollar (XssClean.inHTMLData k)
  = MongoSanitize.starts_with_dollar k.
Proof.
  destruct k as [|a k]; [reflexivity|]. simpl.
  destruct a as [[] [] [] [] [] [] [] []]; reflexivity.
Qed.

Lemma inHTMLData_dot k :
  MongoSanitize.has_dot (XssClean.inHTMLData k) = MongoSanitize.has_dot k.
Proof.
  induction k as [|a k IH]; [reflexivity|].
  destruct a as [[] [] [] [] [] [] [] []]; try reflexivity; exact IH.
Qed.

Lemma inHTMLData_TEST_REGEX k :
  MongoSanitize.TEST_REGEX (XssClean.inHTMLData k) = MongoSanitize.TEST_REGEX k.
Proof. unfold MongoSanitize.TEST_REGEX. now rewrite inHTMLData_dollar, inHTMLData_dot. Qed.

Lemma has_lt_inHTMLData t : has_lt (XssClean.inHTMLData t) = false.
Proof.
  induction t as [|a t IH]; [reflexivity|].
  destruct a as [[] [] [] [] [] [] [] []]; exact IH.
Qed.

Lemma inHTMLData_same t : has_lt t = false -> XssClean.inHTMLData t = t.
Proof.
  induction t as [|a t IH]; [reflexivity|].
  destruct a as [[] [] [] [] [] [] [] []]; simpl; intros H;
    try discriminate H; now rewrite IH.
Qed.

(** *** Trimming keeps a part of the string *)

Lemma has_lt_list t : has_lt t = existsb (Ascii.eqb "<") (list_ascii_of_string t).
Proof.
  induction t as [|a t IH]; [reflexivity|].
  destruct a as [[] [] [] [] [] [] [] []]; try exact IH; reflexivity.
Qed.

Lemma strip_suffix p : forall l rest, XssClean.strip p l = Some rest -> l = p ++ rest.
Proof.
  induction p as [|a p IH]; intros [|b l] rest H; simpl in H; try discriminate H.
  - now injection H as <-.
  - now injection H as <-.
  - destruct (Ascii.eqb_spec a b); [|discriminate H]. subst b.
    simpl. f_equal. now apply IH.
Qed.

Lemma strip_any_suffix ps l rest :
  XssClean.strip_any ps l = Some rest -> exists p, l = p ++ rest.
Proof.
  induction ps as [|p ps IH]; simpl; [discriminate|].
  destruct (XssClean.strip p l) as [r|] eqn:Hs; [|exact IH].
  intros H. injection H as <-. exists p. now apply strip_suffix.
Qed.

Lemma trimStart_suffix ws fuel : forall l, exists p, l = p ++ XssClean.trimStart fuel ws l.
Proof.
  induction fuel as [|fuel IH]; intros l; simpl; [now exists []|].
  destruct (XssClean.strip_any ws l) as [rest|] eqn:Hs; [|now exists []].
  destruct (strip_any_suffix _ _ _ Hs) as (p & ->).
  destruct (IH rest) as (q & Hq). exists (p ++ q). now rewrite <- app_assoc, <- Hq.
Qed.

Lemma has_lt_trim t : has_lt t = false -> has_lt (XssClean.trim t) = false.
Proof.
  rewrite !has_lt_list. unfold XssClean.trim.
  rewrite list_ascii_of_string_of_list_ascii, !existsb_none.
  intros H x Hx. apply H. apply in_rev in Hx.
  match type of Hx with In _ (XssClean.trimStart ?f ?ws ?l) =>
    destruct (trimStart_suffix ws f l) as (p & Hp) end.
  assert (Hr : In x (rev (XssClean.trimStart (String.length t) XssClean.WhiteSpace
                            (list_ascii_of_string t)))).
  { rewrite Hp. apply in_or_app. now right. }
  apply in_rev in Hr.
  destruct (trimStart_suffix XssClean.WhiteSpace (String.length t)
              (list_ascii_of_string t)) as (q & Hq).
  rewrite Hq. apply in_or_app. now right.
Qed.

(** *** The JSON round trip of xss-clean *)

(** A name that comes again takes a place that is there already. *)
Lemma define_none (P : string * JValue -> bool) k v acc :
  P (k, v) = false -> existsb P acc = false ->
  existsb P (XssClean.define k v acc) = false.
Proof.
  intros Hkv. induction acc as [|[k' v'] acc IH]; simpl.
  - intros _. now rewrite Hkv.
  - intros H. apply orb_false_iff in H. destruct H as [H1 H2].
    destruct (String.eqb k k'); simpl.
    + now rewrite Hkv, H2.
    + now rewrite H1, IH.
Qed.

Lemma collapse_none (P : string * JValue -> bool) l :
  existsb P l = false -> existsb P (XssClean.collapse l) = false.
Proof.
  unfold XssClean.collapse.
  enough (H : forall acc, existsb P acc = false -> existsb P l = false ->
                          existsb P (fold_left (fun acc kv =>
                                                  XssClean.define (fst kv) (snd kv) acc)
                                       l acc) = false) by now apply H.
  induction l as [|[k v] l IH]; intros acc Ha Hl; simpl; [exact Ha|].
  simpl in Hl. apply orb_false_iff in Hl. destruct Hl as [H1 H2].
  apply IH; [|exact H2]. now apply define_none.
Qed.

Lemma reparse_obj props :
  XssClean.reparse (JObj props) = JObj (XssClean.collapse (flat_map printed props)).
Proof.
  simpl. do 2 f_equal.
  induction props as [|[k x] props IH]; [reflexivity|].
  rewrite IH. unfold printed at 2. simpl. now destruct x.
Qed.

Lemma printed_none (P : string * JValue -> bool) props :
  (forall kv, In kv props -> snd kv <> JUndefined ->
              P (XssClean.inHTMLData (fst kv), XssClean.reparse (snd kv)) = false) ->
  existsb P (flat_map printed props) = false.
Proof.
  intros H. apply existsb_none. intros y Hy. apply in_flat_map in Hy.
  destruct Hy as ([k x] & Hkv & Hy). unfold printed in Hy. simpl in Hy.
  specialize (H (k, x) Hkv). simpl in H.
  destruct x; simpl in Hy; [destruct Hy|..];
    (destruct Hy as [<-|[]]; apply H; discriminate).
Qed.

(** The round trip adds no operator key. *)
Lemma reparse_operator_free v :
  has_operator_key v = false -> has_operator_key (XssClean.reparse v) = false.
Proof.
  induction v as [ | | b | n | t | items IH | props IH] using JValue_induction;
    try reflexivity.
  - intros _. simpl. now destruct (XssClean.finite n).
  - simpl. induction IH as [|x items Hx _ IHi]; simpl; [reflexivity|].
    intros H. apply orb_false_iff in H. destruct H as [H1 H2].
    now rewrite Hx, IHi.
  - rewrite reparse_obj, !has_operator_key_obj. intros H.
    apply collapse_none, printed_none. intros kv Hkv _.
    rewrite existsb_none in H. specialize (H kv Hkv).
    apply orb_false_iff in H. destruct H as [H1 H2].
    rewrite List.Forall_forall in IH. unfold names_operator. simpl.
    now rewrite inHTMLData_dollar, H1, (IH kv Hkv H2).
Qed.

(** It leaves no ['<'], whatever it is given. *)
Lemma reparse_no_markup v : has_markup (XssClean.reparse v) = false.
Proof.
  induction v as [ | | b | n | t | items IH | props IH] using JValue_induction;
    try reflexivity.
  - simpl. now destruct (XssClean.finite n).
  - apply has_lt_inHTMLData.
  - simpl. induction IH as [|x items Hx _ IHi]; simpl; [reflexivity|].
    now rewrite Hx, IHi.
  - rewrite reparse_obj, has_markup_obj.
    apply collapse_none, printed_none. intros kv Hkv _.
    rewrite List.Forall_forall in IH. unfold names_markup. simpl.
    now rewrite has_lt_inHTMLData, (IH kv Hkv).
Qed.

(** It brings back no key that express-mongo-sanitize deletes. *)
Lemma reparse_no_flagged_key v :
  has_flagged_key v = false -> has_flagged_key (XssClean.reparse v) = false.
Proof.
  induction v as [ | | b | n | t | items IH | props IH] using JValue_induction;
    try reflexivity.
  - intros _. simpl. now destruct (XssClean.finite n).
  - simpl. induction IH as [|x items Hx _ IHi]; simpl; [reflexivity|].
    intros H. apply orb_false_iff in H. destruct H as [H1 H2].
    now rewrite Hx, IHi.
  - rewrite reparse_obj, !has_flagged_key_obj. intros H.
    apply collapse_none, printed_none. intros kv Hkv _.
    rewrite existsb_none in H. specialize (H kv Hkv).
    apply orb_false_iff in H. destruct H as [H1 H2].
    rewrite List.Forall_forall in IH. unfold names_flagged. simpl.
    now rewrite inHTMLData_TEST_REGEX, H1, (IH kv Hkv H2).
Qed.

(** The same of what the middleware does with a part of the request. *)
Lemma cleaned_operator_free v :
  has_operator_key v = false -> has_operator_key (XssClean.cleaned v) = false.
Proof.
  intros H. unfold XssClean.cleaned. destruct (XssClean.truthy v); [|exact H].
  destruct v as [ | | [|] | n | t | items | props]; try reflexivity;
    now apply reparse_operator_free.
Qed.

Lemma cleaned_no_markup v : has_markup (XssClean.cleaned v) = false.
Proof.
  unfold XssClean.cleaned. destruct (XssClean.truthy v) eqn:Ht.
  - destruct v as [ | | [|] | n | t | items | props]; try reflexivity;
      try apply reparse_no_markup; simpl; apply has_lt_trim, has_lt_inHTMLData.
  - destruct v as [ | | [|] | n | [|a t] | items | props]; try reflexivity;
      discriminate Ht.
Qed.

Lemma cleaned_no_flagged_key v :
  has_flagged_key v = false -> has_flagged_key (XssClean.cleaned v) = false.
Proof.
  intros H. unfold XssClean.cleaned. destruct (XssClean.truthy v); [|exact H].
  destruct v as [ | | [|] | n | t | items | props]; try reflexivity;
    now apply reparse_no_flagged_key.
Qed.

Lemma buffer_json_keys bytes :
  has_operator_key (XssClean.buffer_json bytes) = false
  /\ has_flagged_key (XssClean.buffer_json bytes) = false.
Proof.
  unfold XssClean.buffer_json. simpl. rewrite !orb_false_r.
  induction bytes as [|b bytes IH]; simpl; [split; reflexivity|]. exact IH.
Qed.

Lemma buffer_json_operator_free bytes :
  has_operator_key (XssClean.reparse (XssClean.buffer_json bytes)) = false.
Proof. apply reparse_operator_free, buffer_json_keys. Qed.

Lemma buffer_json_no_flagged_key bytes :
  has_flagged_key (XssClean.reparse (XssClean.buffer_json bytes)) = false.
Proof. apply reparse_no_flagged_key, buffer_json_keys. Qed.

(** *** The round trip on what qs builds *)

Lemma define_fresh k v acc :
  existsb (String.eqb k) (map fst acc) = false ->
  XssClean.define k v acc = acc ++ [(k, v)].
Proof.
  induction acc as [|[k' v'] acc IH]; simpl; [reflexivity|].
  intros H. apply orb_false_iff in H. destruct H as [H1 H2].
  now rewrite H1, IH.
Qed.

Lemma collapse_distinct l : distinct (map fst l) = true -> XssClean.collapse l = l.
Proof.
  unfold XssClean.collapse.
  enough (H : forall acc,
             (forall k, In k (map fst l) -> existsb (String.eqb k) (map fst acc) = false) ->
             distinct (map fst l) = true ->
             fold_left (fun acc kv => XssClean.define (fst kv) (snd kv) acc) l acc
             = acc ++ l).
  { intros Hd. now apply (H []). }
  induction l as [|[k v] l IH]; intros acc Hacc Hd; simpl; [now rewrite app_nil_r|].
  simpl in Hd. apply andb_true_iff in Hd. destruct Hd as [Hk Hd].
  apply negb_true_iff in Hk.
  rewrite define_fresh by (apply Hacc; now left).
  rewrite IH; [now rewrite <- app_assoc| |exact Hd].
  intros k' Hk'. rewrite map_app, existsb_app, Hacc by (now right). simpl.
  rewrite orb_false_r. rewrite existsb_none in Hk.
  destruct (String.eqb_spec k' k) as [->|]; [|reflexivity].
  specialize (Hk k Hk'). now rewrite String.eqb_refl in Hk.
Qed.

Lemma plain_obj props :
  plain (JObj props) = distinct (map fst props) && forallb (fun kv => plain (snd kv)) props.
Proof.
  simpl. f_equal. induction props as [|[k x] props IH]; [reflexivity|].
  simpl. now rewrite IH.
Qed.

(** The round trip leaves alone what qs builds, when no ['<'] is in it. *)
Lemma reparse_same v : plain v = true -> has_markup v = false -> XssClean.reparse v = v.
Proof.
  induction v as [ | | b | n | t | items IH | props IH] using JValue_induction;
    try discriminate.
  - intros _ H. simpl in H |- *. now rewrite inHTMLData_same.
  - simpl. intros Hp H. f_equal.
    induction IH as [|x items Hx _ IHi]; simpl; [reflexivity|].
    simpl in Hp, H. apply andb_true_iff in Hp. destruct Hp as [Hp1 Hp2].
    apply orb_false_iff in H. destruct H as [H1 H2].
    now rewrite Hx, IHi.
  - rewrite reparse_obj, plain_obj, has_markup_obj. intros Hp H.
    apply andb_true_iff in Hp. destruct Hp as [Hd Hp].
    assert (Hsame : flat_map printed props = props).
    { clear Hd. induction IH as [|[k x] props Hx _ IHp]; [reflexivity|].
      simpl in Hp, H. apply andb_true_iff in Hp. destruct Hp as [Hp1 Hp2].
      apply orb_false_iff in H. destruct H as [H1 H2].
      unfold names_markup in H1. simpl in H1, Hx.
      apply orb_false_iff in H1. destruct H1 as [H0 H1].
      specialize (Hx Hp1 H1).
      cbn [flat_map]. rewrite (IHp Hp2 H2). unfold printed. cbn [fst snd].
      destruct x; try discriminate Hp1;
        now rewrite inHTMLData_same, Hx by assumption. }
    rewrite Hsame. f_equal. now apply collapse_distinct.
Qed.

Lemma cleaned_same v :
  parsed_query v = true -> has_markup v = false -> XssClean.cleaned v = v.
Proof.
  destruct v as [ | | b | n | t | items | props]; try discriminate.
  intros Hp H. unfold parsed_query in Hp. now apply (reparse_same (JObj props)).
Qed.

(** *** hpp *)

(** The pollution guard keeps a part of what it is given: what holds of
    no value of a parameter list holds of none that the guard leaves. *)
Lemma select_last_none (P : JValue -> bool) items :
  P JUndefined = false -> existsb P items = false -> P (Hpp.select_last items) = false.
Proof.
  intros Hu. unfold Hpp.select_last.
  induction items as [|x items IH]; simpl; [intros _; exact Hu|].
  intros H. apply orb_false_iff in H. destruct H as [H1 H2].
  destruct items; [exact H1 | now apply IH].
Qed.

(** The pollution guard adds no operator key. *)
Lemma guarded_operator_free whitelist v :
  has_operator_key v = false -> has_operator_key (guarded whitelist v) = false.
Proof.
  destruct v as [ | | b | n | t | items | props]; try (intros; reflexivity); [auto|].
  simpl. induction props as [|[k x] props IH]; simpl; [reflexivity|].
  intros H. apply orb_false_iff in H. destruct H as [H1 H2].
  apply orb_false_iff in H1. destruct H1 as [H0 H1].
  specialize (IH H2).
  destruct x as [ | | b | n | t | items | props']; simpl;
    try (now rewrite H0, IH); try (simpl in H1; now rewrite H0, H1, IH).
  destruct (Hpp.whitelisted whitelist k); simpl.
  - simpl in H1. now rewrite H0, H1, IH.
  - simpl in H1. now rewrite H0, (select_last_none has_operator_key items eq_refl H1), IH.
Qed.

Lemma guarded_no_markup whitelist v :
  has_markup v = false -> has_markup (guarded whitelist v) = false.
Proof.
  destruct v as [ | | b | n | t | items | props]; try (intros; reflexivity); [auto|auto|].
  simpl. induction props as [|[k x] props IH]; simpl; [reflexivity|].
  intros H. apply orb_false_iff in H. destruct H as [H1 H2].
  apply orb_false_iff in H1. destruct H1 as [H0 H1].
  specialize (IH H2).
  destruct x as [ | | b | n | t | items | props']; simpl;
    try (now rewrite H0, IH); try (simpl in H1; now rewrite H0, H1, IH).
  destruct (Hpp.whitelisted whitelist k); simpl.
  - simpl in H1. now rewrite H0, H1, IH.
  - simpl in H1. now rewrite H0, (select_last_none has_markup items eq_refl H1), IH.
Qed.

Lemma guarded_no_flagged_key whitelist v :
  has_flagged_key v = false -> has_flagged_key (guarded whitelist v) = false.
Proof.
  destruct v as [ | | b | n | t | items | props]; try (intros; reflexivity); [auto|].
  simpl. induction props as [|[k x] props IH]; simpl; [reflexivity|].
  intros H. apply orb_false_iff in H. destruct H as [H1 H2].
  apply orb_false_iff in H1. destruct H1 as [H0 H1].
  specialize (IH H2).
  destruct x as [ | | b | n | t | items | props']; simpl;
    try (now rewrite H0, IH); try (simpl in H1; now rewrite H0, H1, IH).
  destruct (Hpp.whitelisted whitelist k); simpl.
  - simpl in H1. now rewrite H0, H1, IH.
  - simpl in H1. now rewrite H0, (select_last_none has_flagged_key items eq_refl H1), IH.
Qed.

Lemma guarded_same whitelist v : unrepeated whitelist v = true -> guarded whitelist v = v.
Proof.
  destruct v as [ | | b | n | t | items | props]; try reflexivity.
  simpl. intros H. f_equal.
  induction props as [|[k x] props IH]; simpl; [reflexivity|].
  simpl in H. apply andb_true_iff in H. destruct H as [H1 H2].
  rewrite (IH H2). destruct x; try reflexivity. now rewrite H1.
Qed.

Lemma whitelisted_In whitelist k : Hpp.whitelisted whitelist k = true <-> In k whitelist.
Proof.
  unfold Hpp.whitelisted. rewrite existsb_exists. split.
  - intros (x & Hx & He). apply String.eqb_eq in He. now subst.
  - intros H. exists k. split; [exact H | apply String.eqb_refl].
Qed.

(** What the guard keeps of a parameter: the last of its occurrences,
    or all of them when its name is on the list. *)
Lemma keep_last_kept whitelist kv : last_kept whitelist kv (Hpp.keep whitelist kv).
Proof.
  destruct kv as [k v]. unfold last_kept.
  destruct v as [ | | b | n | t | items | props]; simpl; try (split; reflexivity).
  destruct (Hpp.whitelisted whitelist k) eqn:Hw; simpl; (split; [reflexivity|]); split.
  - reflexivity.
  - intros Hn. apply whitelisted_In in Hw. contradiction.
  - intros Hi. apply whitelisted_In in Hi. congruence.
  - intros _. destruct items as [|x items]; [now left|]. right.
    exists (removelast (x :: items)). unfold Hpp.select_last.
    now apply app_removelast_last.
Qed.

Lemma guarded_keeps_last whitelist v : keeps_last whitelist v (guarded whitelist v).
Proof.
  destruct v as [ | | b | n | t | items | props]; try reflexivity.
  simpl. eexists. split; [reflexivity|].
  induction props as [|kv props IH]; simpl; constructor; [apply keep_last_kept | exact IH].
Qed.

(** What the guard does to the query of a context it sees for the first time. *)
Lemma guard_query whitelist c :
  queryPolluted c = None ->
  cquery (Hpp.guard whitelist c) = guarded whitelist (cquery c).
Proof.
  intros Hq. unfold Hpp.guard, guarded. rewrite Hq.
  destruct (cquery c); simpl; repeat case_match; reflexivity.
Qed.

Lemma guard_body whitelist c :
  bodyPolluted c = None ->
  body (Hpp.guard whitelist c) = body c
  \/ exists props, body c = BData (JObj props)
                   /\ body (Hpp.guard whitelist c) = BData (guarded whitelist (JObj props)).
Proof.
  intros Hq. unfold Hpp.guard. rewrite Hq.
  destruct (cquery c); destruct (body c) as [| |[]]; simpl;
    repeat case_match; simplify_eq; simpl; eauto.
Qed.

Lemma guard_body_none (Q : JValue -> bool) whitelist c :
  bodyPolluted c = None ->
  (forall v, Q v = false -> Q (guarded whitelist v) = false) ->
  match body c with BData v => Q v | _ => false end = false ->
  match body (Hpp.guard whitelist c) with BData v => Q v | _ => false end = false.
Proof.
  intros Hq HQ Hb.
  destruct (guard_body whitelist c Hq) as [-> | (props & Hc & ->)]; [exact Hb|].
  rewrite Hc in Hb. now apply HQ.
Qed.

Lemma guard_params whitelist c : params (Hpp.guard whitelist c) = params c.
Proof. unfold Hpp.guard. repeat case_match; reflexivity. Qed.

(** *** The three stages together *)

Lemma after_guards_query c :
  queryPolluted c = None ->
  cquery (after_guards c)
  = guarded hpp_whitelist (XssClean.cleaned (MongoSanitize.sanitize (cquery c))).
Proof.
  intros Hq. unfold after_guards. cbn [cquery set_requestedAt].
  now rewrite guard_query by exact Hq.
Qed.

Lemma after_guards_params c :
  params (after_guards c) = XssClean.cleaned (MongoSanitize.sanitize (params c)).
Proof.
  unfold after_guards. cbn [params set_requestedAt]. now rewrite guard_params.
Qed.

Lemma after_guards_body (Q : JValue -> bool) c :
  bodyPolluted c = None ->
  (forall v, Q v = false -> Q (guarded hpp_whitelist v) = false) ->
  (forall v, Q (XssClean.cleaned (MongoSanitize.sanitize v)) = false) ->
  (forall bytes, Q (XssClean.reparse (XssClean.buffer_json bytes)) = false) ->
  match body (after_guards c) with BData v => Q v | _ => false end = false.
Proof.
  intros Hb HQ Hv Hbuf. unfold after_guards. cbn [body set_requestedAt].
  apply guard_body_none; [exact Hb | exact HQ |].
  cbn [body XssClean.clean_request MongoSanitize.sanitize_request set_inputs].
  destruct (body c); cbn [MongoSanitize.sanitize_body XssClean.clean_body];
    [reflexivity | apply Hbuf | apply Hv].
Qed.

(** After the sanitisers, the guard and the annotation stage no operator
    key is left in body, query or parameters. *)
Lemma after_guards_operator_free c :
  queryPolluted c = None -> bodyPolluted c = None ->
  operator_free (after_guards c) = true.
Proof.
  intros Hq Hb. unfold operator_free.
  rewrite after_guards_query, after_guards_params by exact Hq.
  rewrite guarded_operator_free
    by (apply cleaned_operator_free, sanitize_operator_free).
  rewrite cleaned_operator_free by apply sanitize_operator_free.
  unfold body_has_operator_key.
  rewrite (after_guards_body has_operator_key c Hb); [reflexivity | | | ].
  - apply guarded_operator_free.
  - intros v. apply cleaned_operator_free, sanitize_operator_free.
  - apply buffer_json_operator_free.
Qed.

End Sanitised.

(** ** What the routers are given *)
Section Routers.
Import App Contract.
Variables (E : Env) (now : Z) (s : RateLimit.Store) (rq : Request).

(** The routers and the layers after them only ever see one context. *)
Lemma routers_share_context st c2 t r c :
  (forall r' c', ~ In (router r', c') t) ->
  In (router r, c)
     (trace (walk E now rq (beyond 10 E) {| store := st; flow := Go None c2; trace := t |})) ->
  c = c2.
Proof.
  intros Ht Hin.
  enough (H : (forall r' c', In (router r', c')
                 (trace (walk E now rq (beyond 10 E)
                           {| store := st; flow := Go None c2; trace := t |})) -> c' = c2)
              /\ (forall c', flow (walk E now rq (beyond 10 E)
                                     {| store := st; flow := Go None c2; trace := t |})
                             = Go None c' -> c' = c2)).
  { destruct H as [H _]. eapply H; eauto. }
  apply (walk_inv E now rq
           (fun x => (forall r' c', In (router r', c') (trace x) -> c' = c2)
                     /\ (forall c', flow x = Go None c' -> c' = c2))).
  - intros h Hh x [I1 I2].
    destruct (invoke_cases E now x h)
      as [Heq | [(c0 & Hf0 & _ & Heq) | (e0 & c0 & _ & Hg & Heq)]]; rewrite Heq.
    + auto.
    + specialize (I2 _ Hf0). subst c0. simpl. split.
      * intros r' c' Hi. apply in_app_or in Hi. destruct Hi as [Hi|[Hi|[]]]; [eauto|].
        now injection Hi as _ <-.
      * revert Hh. unfold beyond, opening, app.
        destruct (development E); simpl; intros Hh c' Hc;
          repeat (destruct Hh as [<-|Hh];
                  [simpl in Hc; unfold settle in Hc; repeat case_match;
                   simpl in Hc; simplify_eq; reflexivity|]);
          destruct Hh.
    + simpl. split; [|discriminate].
      intros r' c' Hi. apply in_app_or in Hi. destruct Hi as [Hi|[Hi|[]]]; [eauto|].
      subst h. discriminate Hi.
  - simpl. split.
    + intros r' c' Hi. now apply Ht in Hi.
    + intros c' Hc. now injection Hc as <-.
Qed.

(** A router is given the context that left the stages before the
    sanitisers, as the sanitisers, the guard and the annotation stage have
    rewritten it. *)
Lemma router_entry r c :
  In (router r, c) (trace (handle E now s rq)) ->
  exists c1, untouched rq c1 /\ c = after_guards c1.
Proof.
  intros Hin. rewrite (handle_cut 5) in Hin.
  assert (Hfront : forallb is_front (registered (upto 5 E)) = true) by cut_facts.
  pose proof (front_inv E now rq (upto 5 E) s Hfront) as Hinv.
  assert (Ht : forall r' c', ~ In (router r', c')
                               (trace (walk E now rq (upto 5 E) (start s rq)))).
  { intros r' c' Hc. apply trace_origin in Hc. destruct Hc as [[]|Hc]. revert Hc. cut_facts. }
  destruct (walk E now rq (upto 5 E) (start s rq)) as [st [[e|] c1|x] t] eqn:Hr;
    simpl in Ht, Hinv.
  - rewrite error_is_funneled with (e := e) (c := c1) in Hin by (auto; lia).
    simpl in Hin. apply in_app_or in Hin. destruct Hin as [Hin|[Hin|[]]];
      [now apply Ht in Hin | discriminate Hin].
  - exists c1. split; [apply (Hinv c1 eq_refl)|].
    replace (beyond 5 E)
      with ([Use "/" mongoSanitize; Use "/" xss; Use "/" (hpp hpp_whitelist);
             Use "/" compression; Use "/" testMiddleware] ++ beyond 10 E) in Hin
      by cut_facts.
    rewrite walk_app in Hin. revert Hin.
    do 5 (step idtac). rewrite walk_nil. intros Hin.
    apply routers_share_context in Hin; [exact Hin|].
    intros r' c' Hc. repeat (apply in_app_or in Hc; destruct Hc as [Hc|[Hc|[]]];
                             [|discriminate Hc]).
    now apply Ht in Hc.
  - erewrite walk_done in Hin by reflexivity. now apply Ht in Hin.
Qed.

End Routers.

(** C5, as it is written, does not hold: the webhook handler is a route
    handler that runs before the sanitisers; it is given the query as it
    was parsed, operator keys included. *)
Lemma webhook_sees_operator_key : ~ AsWritten.route_handlers_never_see_operator_keys.
Proof.
  intros H.
  specialize (H Sample.env 0%Z Sample.fresh Sample.webhook_query App.webhookCheckout
                (Sample.with_body Sample.webhook_query (BBuffer Sample.event) true)
                eq_refl).
  assert (Hin : In (App.webhookCheckout,
                    Sample.with_body Sample.webhook_query (BBuffer Sample.event) true)
                   (App.trace (App.handle Sample.env 0 Sample.fresh Sample.webhook_query))).
  { vm_compute. auto 10. }
  specialize (H Hin). vm_compute in H. discriminate H.
Qed.

(** C5, amended.  For every request, no key that begins with the operator
    marker '$' is left, at any depth, in the body, the query or the
    parameters that the routers of the route-dispatch stage are given; and
    the sanitisation stages (injection sanitisation, script sanitisation,
    pollution guard) never fail or reject a request: each hands on a
    rewritten context.  The webhook handler runs before these stages. *)
Theorem routers_see_no_operator_keys (E : Env) :
  (forall now s rq r c,
      In (App.router r, c) (App.trace (App.handle E now s rq)) ->
      Contract.operator_free c = true)
  /\ (forall v, Contract.has_operator_key (MongoSanitize.sanitize v) = false)
  /\ (forall now s c,
        App.call E now App.mongoSanitize s c = (s, Next (MongoSanitize.sanitize_request c))
        /\ App.call E now App.xss s c = (s, Next (XssClean.clean_request c))
        /\ App.call E now (App.hpp App.hpp_whitelist) s c
           = (s, Next (Hpp.guard App.hpp_whitelist c))).
Proof.
  split; [|split].
  - intros now s rq r c Hin.
    destruct (router_entry E now s rq r c Hin) as (c1 & (_ & _ & _ & Hq & Hb) & ->).
    now apply after_guards_operator_free.
  - apply sanitize_operator_free.
  - intros now s c. repeat split.
Qed.

Lemma routers_see_no_operator_keys_witness :
  Contract.operator_free
    (Contract.after_guards
       (set_cookies [] (Sample.with_body Sample.tours_query BodyParser.empty_object false)))
  = true.
Proof.
  apply (proj1 (routers_see_no_operator_keys Sample.env)
           0%Z Sample.fresh Sample.tours_query tourRouter).
  vm_compute. auto 30.
Defined.

(** C7, as it is written, does not hold: the webhook handler runs before
    the pollution guard and is given both occurrences of a repeated query
    key. *)
Lemma webhook_sees_repeated_key : ~ AsWritten.route_handlers_see_one_occurrence.
Proof.
  intros H.
  specialize (H Sample.env 0%Z Sample.fresh Sample.webhook_query App.webhookCheckout
                (Sample.with_body Sample.webhook_query (BBuffer Sample.event) true)
                "sort" (JArr [JStr "price"; JStr "name"]) eq_refl).
  assert (Hin : In (App.webhookCheckout,
                    Sample.with_body Sample.webhook_query (BBuffer Sample.event) true)
                   (App.trace (App.handle Sample.env 0 Sample.fresh Sample.webhook_query))).
  { vm_compute. auto 10. }
  assert (Hk : In ("sort", JArr [JStr "price"; JStr "name"])
                  (Contract.props_of
                     (cquery (Sample.with_body Sample.webhook_query
                                (BBuffer Sample.event) true)))).
  { right. left. reflexivity. }
  exact (H Hin Hk eq_refl [JStr "price"; JStr "name"] eq_refl).
Qed.

(** C7, amended.  The pollution guard is registered with the allow-list
    {duration, ratingAverage, ratingQuantity, maxGroupSize, difficulty,
    price}, and with no other.  The query that the routers of the
    route-dispatch stage are given has the parameters of the sanitised
    query of the request (the query as the two sanitisers before the guard
    leave it), in the same order; a parameter that arrived with several
    values is given with the last of them alone, unless its name is in the
    allow-list, in which case it is given with all of them; any other
    parameter is given as it arrived.  When the sanitisers have nothing to
    act on, this holds of the query of the request itself.  The webhook
    handler, registered before the guard, is given the query as it was
    parsed. *)
Theorem pollution_guard_keeps_last (E : Env) :
  (forall whitelist, In (App.hpp whitelist) (Contract.registered (App.app E)) ->
                     whitelist = ["duration"; "ratingAverage"; "ratingQuantity";
                                  "maxGroupSize"; "difficulty"; "price"])
  /\ In (App.hpp ["duration"; "ratingAverage"; "ratingQuantity";
                  "maxGroupSize"; "difficulty"; "price"])
        (Contract.registered (App.app E))
  /\ (forall now s rq r c,
        In (App.router r, c) (App.trace (App.handle E now s rq)) ->
        Contract.keeps_last
          ["duration"; "ratingAverage"; "ratingQuantity";
           "maxGroupSize"; "difficulty"; "price"]
          (XssClean.cleaned (MongoSanitize.sanitize (query rq))) (cquery c))
  /\ (forall now s rq r c,
        In (App.router r, c) (App.trace (App.handle E now s rq)) ->
        Wiring.parsed_query (query rq) = true ->
        Wiring.has_flagged_key (query rq) = false ->
        Wiring.has_markup (query rq) = false ->
        Contract.keeps_last
          ["duration"; "ratingAverage"; "ratingQuantity";
           "maxGroupSize"; "difficulty"; "price"]
          (query rq) (cquery c))
  /\ (forall now s rq c,
        In (App.webhookCheckout, c) (App.trace (App.handle E now s rq)) ->
        cquery c = query rq).
Proof.
  assert (Hgiven : forall now s rq r c,
             In (App.router r, c) (App.trace (App.handle E now s rq)) ->
             cquery c = Contract.guarded App.hpp_whitelist
                          (XssClean.cleaned (MongoSanitize.sanitize (query rq)))).
  { intros now s rq r c Hin.
    destruct (router_entry E now s rq r c Hin) as (c1 & (_ & Hq & _ & Hp & _) & ->).
    rewrite after_guards_query by exact Hp. now rewrite Hq. }
  split; [|split; [|split; [|split]]].
  - intros whitelist Hin. unfold App.app in Hin.
    destruct (App.development E); simpl in Hin;
      repeat (destruct Hin as [Hin|Hin];
              [try discriminate Hin; injection Hin as <-; reflexivity|]);
      destruct Hin.
  - unfold App.app. destruct (App.development E); simpl; auto 30.
  - intros now s rq r c Hin. rewrite (Hgiven now s rq r c Hin).
    apply (guarded_keeps_last App.hpp_whitelist).
  - intros now s rq r c Hin Hq Hk Hm. rewrite (Hgiven now s rq r c Hin).
    rewrite sanitize_same, cleaned_same by assumption.
    apply (guarded_keeps_last App.hpp_whitelist).
  - intros now s rq c. apply webhook_query.
Qed.

Lemma pollution_guard_keeps_last_witness :
  Contract.keeps_last App.hpp_whitelist
    (JObj [("sort", JArr [JStr "price"; JStr "name"; JStr "duration"]);
           ("price", JArr [JStr "1"; JStr "2"])])
    (JObj [("sort", JStr "duration"); ("price", JArr [JStr "1"; JStr "2"])])
  /\ cquery (Sample.with_body Sample.webhook_query (BBuffer Sample.event) true)
     = JObj [("$where", JStr "1"); ("sort", JArr [JStr "price"; JStr "name"])].
Proof.
  pose proof (pollution_guard_keeps_last Sample.env) as (_ & _ & _ & H4 & H5).
  split.
  - apply (H4 0%Z Sample.fresh Sample.tours_sorted tourRouter
              (Contract.after_guards
                 (set_cookies []
                    (Sample.with_body Sample.tours_sorted BodyParser.empty_object false))));
      [vm_compute; auto 30 | reflexivity | reflexivity | reflexivity].
  - apply (H5 0%Z Sample.fresh Sample.webhook_query). vm_compute. auto 10.
Defined.

(** C8.  The annotation stage never fails the request, but what it stores
    in [req.requestedAt] is not a timestamp: [new Date().toISOString] reads
    the method without calling it, so the annotation is the function
    [Date.prototype.toISOString], the same at every time of arrival, and
    that is what the routers are given. *)
Theorem requestedAt_is_a_method_reference (E : Env) :
  (forall now s c,
      App.call E now App.testMiddleware s c
      = (s, Next (set_requestedAt (FunctionRef "Date.prototype.toISOString") c)))
  /\ (forall now s rq r c,
        In (App.router r, c) (App.trace (App.handle E now s rq)) ->
        requestedAt c = FunctionRef "Date.prototype.toISOString"
        /\ forall t, requestedAt c <> StringValue t).
Proof.
  split; [reflexivity|].
  intros now s rq r c Hin.
  destruct (router_entry E now s rq r c Hin) as (c1 & _ & ->).
  split; [reflexivity | discriminate].
Qed.

Lemma requestedAt_is_a_method_reference_witness :
  requestedAt (Contract.after_guards
                 (set_cookies []
                    (Sample.with_body Sample.tours_query BodyParser.empty_object false)))
  = FunctionRef "Date.prototype.toISOString".
Proof.
  apply (proj2 (requestedAt_is_a_method_reference Sample.env)
           1700000000000%Z Sample.fresh Sample.tours_query tourRouter).
  vm_compute. auto 30.
Defined.

(** * Further properties of the wiring *)

(** ** Settled runs stay settled *)
Section Settled.
Import App Contract.
Variables (E : Env) (now : Z) (rq : Request).

(** [next()] at the end of a walk means [next()] at its start: no function
    turns an answer or a pending error back into [next()]. *)
Lemma walk_go_back stack r c :
  flow (walk E now rq stack r) = Go None c -> exists c0, flow r = Go None c0.
Proof.
  apply (walk_inv E now rq
           (fun r' => forall c, flow r' = Go None c -> exists c0, flow r = Go None c0)).
  - intros h _ r' IH c' Hf.
    destruct (invoke_cases E now r' h)
      as [Heq | [(c0 & Hf0 & _ & Heq) | (e0 & c0 & _ & _ & Heq)]]; rewrite Heq in Hf.
    + eauto.
    + eauto.
    + discriminate Hf.
  - eauto.
Qed.

End Settled.

(** ** Static assets *)

(** X1.  What express.static answers is the answer of the request: when it
    writes a response to a GET or HEAD request, no other function runs and
    the limiter counts nothing.  It answers no other method: a request of
    another method is handed on to the cross-origin stage untouched,
    whatever is in the public directory, and so is a GET or HEAD request
    that it does not answer. *)
Theorem static_asset_short_circuits (E : Env) (now : Z) (s : RateLimit.Store)
    (rq : Request) :
  (forall r,
      method rq = GET \/ method rq = HEAD ->
      public_send E rq = Some r ->
      App.flow (App.handle E now s rq) = App.Done r
      /\ App.ran (App.handle E now s rq) = [App.express_static "public"]
      /\ App.store (App.handle E now s rq) = s)
  /\ (method rq <> GET -> method rq <> HEAD ->
      In (App.cors, arrive rq) (App.trace (App.handle E now s rq)))
  /\ (public_send E rq = None ->
      In (App.cors, arrive rq) (App.trace (App.handle E now s rq))).
Proof.
  assert (Hon : ServeStatic.serve E (arrive rq) = Next (arrive rq) ->
                In (App.cors, arrive rq) (App.trace (App.handle E now s rq))).
  { intros Hs. unfold App.handle, App.app, App.start. cbn [List.app].
    rewrite walk_cons, use_next by reflexivity. cbn [App.call fst snd]. rewrite Hs.
    cbn [App.flow_of]. rewrite walk_cons, use_next by reflexivity.
    apply walk_trace. simpl. auto. }
  split; [|split].
  - intros r Hm Hf.
    unfold App.handle, App.app, App.start. cbn [List.app].
    rewrite walk_cons, use_next by reflexivity. cbn [App.call fst snd].
    unfold ServeStatic.serve. cbn [req arrive]. rewrite Hf.
    destruct Hm as [-> | ->]; cbn [App.flow_of];
      (erewrite walk_done by reflexivity); repeat split.
  - intros Hg Hh. apply Hon. unfold ServeStatic.serve. cbn [req arrive].
    destruct (method rq); congruence.
  - intros Hn. apply Hon. unfold ServeStatic.serve. cbn [req arrive]. rewrite Hn.
    now destruct (method rq).
Qed.

Lemma static_asset_short_circuits_witness :
  (App.flow (App.handle Site.env 0 Sample.exhausted Site.get_stylesheet)
   = App.Done {| status := 200; payload := PFile Site.stylesheet |}
   /\ App.ran (App.handle Site.env 0 Sample.exhausted Site.get_stylesheet)
      = [App.express_static "public"]
   /\ App.store (App.handle Site.env 0 Sample.exhausted Site.get_stylesheet)
      = Sample.exhausted)
  /\ In (App.cors, arrive Site.post_stylesheet)
        (App.trace (App.handle Site.env 0 Sample.exhausted Site.post_stylesheet))
  /\ In (App.cors, arrive Site.home)
        (App.trace (App.handle Site.env 0 Sample.exhausted Site.home)).
Proof.
  pose proof (static_asset_short_circuits Site.env 0%Z Sample.exhausted Site.get_stylesheet)
    as (H1 & _ & _).
  pose proof (static_asset_short_circuits Site.env 0%Z Sample.exhausted Site.post_stylesheet)
    as (_ & H2 & _).
  pose proof (static_asset_short_circuits Site.env 0%Z Sample.exhausted Site.home)
    as (_ & _ & H3).
  split; [|split].
  - apply H1; [left|]; reflexivity.
  - apply H2; discriminate.
  - apply H3. reflexivity.
Defined.

(** ** Preflight requests *)
Section Preflight.
Import App Contract Wiring.
Variables (E : Env) (now : Z) (s : RateLimit.Store) (rq : Request).

Lemma preflight_two_layers :
  method rq = OPTIONS ->
  walk E now rq (firstn 2 (app E)) (start s rq)
  = {| store := s; flow := Done {| status := 204; payload := PEmpty |};
       trace := [(express_static "public", arrive rq); (cors, arrive rq)] |}.
Proof.
  intros Hm. destruct rq as [m url p q ip ct cs ce ck rb]; cbn [method] in *. subst m.
  unfold app, start. cbn [List.app firstn].
  do 2 (rewrite walk_cons, use_next by reflexivity; eval_call).
  reflexivity.
Qed.


End Preflight.

(** X2.  Every OPTIONS request, whatever its path, is answered by the
    cross-origin stage with status 204 and an empty body: only the static
    stage and the cross-origin stage run, and the limiter counts nothing. *)
Theorem preflight_answered_by_cors (E : Env) (now : Z) (s : RateLimit.Store)
    (rq : Request) :
  method rq = OPTIONS ->
  App.flow (App.handle E now s rq) = App.Done {| status := 204; payload := PEmpty |}
  /\ App.ran (App.handle E now s rq) = [App.express_static "public"; App.cors]
  /\ App.store (App.handle E now s rq) = s.
Proof.
  intros Hm. unfold App.handle.
  rewrite <- (firstn_skipn 2 (App.app E)), walk_app, (preflight_two_layers E now s rq Hm).
  erewrite walk_done by reflexivity. repeat split.
Qed.

Lemma preflight_answered_by_cors_witness :
  App.flow (App.handle Site.env 0 Sample.exhausted Site.preflight)
  = App.Done {| status := 204; payload := PEmpty |}.
Proof.
  apply (preflight_answered_by_cors Site.env 0%Z Sample.exhausted Site.preflight).
  reflexivity.
Defined.


(** ** Logging *)
Section Logging.
Import App Contract Wiring.
Variables (E : Env) (now : Z) (rq : Request).

Lemma call_with_NODE_ENV v h s c :
  call (with_NODE_ENV v E) now h s c = call E now h s c.
Proof. destruct h; reflexivity. Qed.

Lemma quiet_snoc t x : quiet (t ++ [x]) = quiet t ++ quiet [x].
Proof. unfold quiet. apply List.filter_app. Qed.

(** The same function called under two values of NODE_ENV does the same. *)
Lemma invoke_same v v' r r' h :
  same_outcome r r' ->
  same_outcome (invoke (with_NODE_ENV v E) now r h) (invoke (with_NODE_ENV v' E) now r' h).
Proof.
  intros (Hs & Hf & Ht). unfold invoke. rewrite <- Hf.
  destruct (flow r) as [[e|] c|x] eqn:Hfr; [| |repeat split; congruence].
  - destruct h; simpl; try (repeat split; congruence).
    repeat split; try assumption. simpl. now rewrite !quiet_snoc, Ht.
  - destruct (is_error_handler h); [repeat split; congruence|].
    rewrite !call_with_NODE_ENV, <- Hs.
    destruct (call E now h (store r) c) as [s' st].
    repeat split. simpl. now rewrite !quiet_snoc, Ht.
Qed.

Lemma walk_same v v' stack : forall r r',
  same_outcome r r' ->
  same_outcome (walk (with_NODE_ENV v E) now rq stack r)
               (walk (with_NODE_ENV v' E) now rq stack r').
Proof.
  induction stack as [|l stack IH]; intros r r' H; [exact H|].
  rewrite !walk_cons. apply IH.
  destruct l as [mount fn | verb pattern fns]; simpl.
  - destruct (Express.use_match _ _); [now apply invoke_same | exact H].
  - destruct H as (Hs & Hf & Ht). rewrite <- Hf.
    destruct (flow r) as [[e|] c|x] eqn:Hfr; try (repeat split; congruence).
    destruct (_ && _); [|repeat split; congruence].
    assert (H : same_outcome r r') by (repeat split; congruence).
    clear Hs Hf Ht Hfr. revert r r' H.
    induction fns as [|f fns IHf]; intros r r' H; [exact H|].
    simpl. apply IHf. now apply invoke_same.
Qed.

(** The logger hands every request on as it found it. *)
Lemma logger_same E1 format r r' :
  same_outcome r r' ->
  same_outcome (layer_step E1 now rq r (Use "/" (morgan format))) r'.
Proof.
  intros (Hs & Hf & Ht). simpl. unfold invoke.
  destruct (flow r) as [[e|] c|x] eqn:Hfr; simpl; try (repeat split; congruence).
  repeat split; simpl; try congruence.
  rewrite quiet_snoc, Ht. simpl. apply app_nil_r.
Qed.

Lemma same_outcome_sym r r' : same_outcome r r' -> same_outcome r' r.
Proof. intros (Hs & Hf & Ht). repeat split; congruence. Qed.

End Logging.

(** X4.  Logging is observation only.  The logger runs only when NODE_ENV
    is exactly 'development'; and whatever NODE_ENV is, every request gets
    the same answer, leaves the same limiter store and runs the same other
    functions on the same contexts. *)
Theorem logging_is_observation_only (E : Env) (now : Z) (s : RateLimit.Store)
    (rq : Request) :
  (forall format c,
      In (App.morgan format, c) (App.trace (App.handle E now s rq)) ->
      NODE_ENV E = Some "development")
  /\ forall v v',
       Wiring.same_outcome (App.handle (Wiring.with_NODE_ENV v E) now s rq)
                           (App.handle (Wiring.with_NODE_ENV v' E) now s rq).
Proof.
  split.
  - intros format c Hin. apply trace_origin in Hin. destruct Hin as [[]|Hin].
    unfold App.app, App.development in Hin.
    destruct (NODE_ENV E) as [v|]; [destruct (String.eqb_spec v "development")|];
      try (now subst);
      simpl in Hin; intuition discriminate.
  - intros v v'. unfold App.handle, App.app. cbn [List.app].
    rewrite !walk_cons.
    do 4 match goal with
         | |- Wiring.same_outcome (App.walk _ _ _ (_ :: _) _) _ => rewrite walk_cons
         | _ => idtac
         end.
    rewrite !walk_app.
    apply walk_same.
    assert (H4 : Wiring.same_outcome
                   (App.walk (Wiring.with_NODE_ENV v E) now rq
                      (firstn 4 (App.app E)) (App.start s rq))
                   (App.walk (Wiring.with_NODE_ENV v' E) now rq
                      (firstn 4 (App.app E)) (App.start s rq))).
    { apply walk_same. repeat split. }
    unfold App.app in H4. cbn [List.app firstn] in H4. rewrite !walk_cons in H4.
    rewrite !walk_nil in H4.
    destruct (App.development (Wiring.with_NODE_ENV v E));
      destruct (App.development (Wiring.with_NODE_ENV v' E));
      rewrite ?walk_cons, ?walk_nil.
    + now apply invoke_same.
    + now apply logger_same.
    + now apply same_outcome_sym, logger_same, same_outcome_sym.
    + exact H4.
Qed.

Lemma logging_is_observation_only_witness :
  NODE_ENV Site.env = Some "development"
  /\ App.flow (App.handle (Wiring.with_NODE_ENV (Some "production") Site.env) 0
                 Sample.fresh Site.home)
     = App.flow (App.handle (Wiring.with_NODE_ENV (Some "development") Site.env) 0
                   Sample.fresh Site.home).
Proof.
  pose proof (logging_is_observation_only Site.env 0%Z Sample.fresh Site.home) as [H1 H2].
  split.
  - apply (H1 "dev" (Site.after_helmet Site.home)). vm_compute. auto 30.
  - apply (H2 (Some "production") (Some "development")).
Defined.

(** ** The terminal error handler *)

(** X5.  The error handler runs at most once per request and nothing runs
    after it: when it has run, it is the last entry of the trace, no
    earlier entry is the error handler, and the answer of the request is
    the response that the error controller made of the error. *)
Theorem error_handler_runs_once_and_last (E : Env) (now : Z) (s : RateLimit.Store)
    (rq : Request) (c : Ctx) :
  In (App.globalErrorHandler, c) (App.trace (App.handle E now s rq)) ->
  exists e t,
    App.trace (App.handle E now s rq) = t ++ [(App.globalErrorHandler, c)]
    /\ (forall c', ~ In (App.globalErrorHandler, c') t)
    /\ App.flow (App.handle E now s rq) = App.Done (errorController E e c).
Proof.
  intros Hin. rewrite (handle_cut 16) in Hin |- *.
  replace (Contract.beyond 16 E) with [App.Use "/" App.globalErrorHandler] in Hin |- *
    by cut_facts.
  set (r := App.walk E now rq (Contract.upto 16 E) (App.start s rq)) in *.
  assert (H1 : forall c', ~ In (App.globalErrorHandler, c') (App.trace r)).
  { intros c' Hc. apply trace_origin in Hc. destruct Hc as [[]|Hc]. revert Hc. cut_facts. }
  rewrite walk_cons, walk_nil in Hin |- *. simpl in Hin |- *. unfold App.invoke in Hin |- *.
  destruct (App.flow r) as [[e|] c0|x]; simpl in Hin |- *; try (now apply H1 in Hin).
  apply in_app_or in Hin. destruct Hin as [Hin|[Hx|[]]]; [now apply H1 in Hin|].
  injection Hx as <-. exists e, (App.trace r). repeat split. exact H1.
Qed.

Lemma error_handler_runs_once_and_last_witness :
  exists e t,
    App.trace (App.handle Site.env 0 Sample.fresh Site.account)
    = t ++ [(App.globalErrorHandler, Contract.after_guards (Site.parsed Site.account))]
    /\ (forall c', ~ In (App.globalErrorHandler, c') t)
    /\ App.flow (App.handle Site.env 0 Sample.fresh Site.account)
       = App.Done (errorController Site.env e
                     (Contract.after_guards (Site.parsed Site.account))).
Proof.
  apply (error_handler_runs_once_and_last Site.env 0%Z Sample.fresh Site.account).
  vm_compute. auto 30.
Defined.

(** ** Route dispatch *)
Section Dispatch.
Import App Contract Wiring.
Variables (E : Env) (now : Z) (s : RateLimit.Store) (rq : Request).

Lemma router_layer r :
  app E = upto (layer_of r) E ++ Use (mount_of r) (router r) :: beyond (S (layer_of r)) E.
Proof. destruct r; cut_facts. Qed.

(** A router has run on [c] exactly when the walk reached its layer with
    [next()] carrying [c] and the path is under its mount. *)
Lemma router_origin r c :
  In (router r, c) (trace (handle E now s rq)) ->
  flow (walk E now rq (upto (layer_of r) E) (start s rq)) = Go None c
  /\ Express.use_match (mount_of r) (path rq) = true.
Proof.
  intros Hin. unfold handle in Hin. rewrite (router_layer r) in Hin.
  apply entry_origin with (h0 := router r) in Hin; auto using start_trace.
  - destruct r; cut_facts.
  - destruct r; cut_facts.
Qed.

Lemma router_step r c :
  In (router r, c) (trace (handle E now s rq)) ->
  handle E now s rq
  = walk E now rq (beyond (S (layer_of r)) E)
      {| store := store (walk E now rq (upto (layer_of r) E) (start s rq));
         flow := flow_of (match routed E r c with
                          | Some x => settle x c
                          | None => Next c
                          end);
         trace := trace (walk E now rq (upto (layer_of r) E) (start s rq))
                  ++ [(router r, c)] |}.
Proof.
  intros Hin. destruct (router_origin r c Hin) as [Hf Hm].
  unfold handle. rewrite (router_layer r) at 1. rewrite walk_app, walk_cons.
  simpl layer_step. rewrite Hm.
  now rewrite (invoke_go E now _ (router r) c Hf eq_refl).
Qed.

Lemma layer_of_bound r : S (layer_of r) <= 16.
Proof. destruct r; simpl; lia. Qed.

End Dispatch.

(** X6.  The router that takes a request owns it.  When a router answers,
    its response is the answer of the request and nothing runs after the
    router; when it fails, the only function that runs after it is the
    error handler, on the same context, and the answer is what the error
    controller makes of the router's error.  In neither case does a router
    mounted later see the request. *)
Theorem router_that_settles_owns_request (E : Env) (now : Z) (s : RateLimit.Store)
    (rq : Request) (r : RouterName) (c : Ctx) :
  In (App.router r, c) (App.trace (App.handle E now s rq)) ->
  (forall resp,
      routed E r c = Some (inl resp) ->
      App.flow (App.handle E now s rq) = App.Done resp
      /\ exists t, App.trace (App.handle E now s rq) = t ++ [(App.router r, c)])
  /\ (forall e,
        routed E r c = Some (inr e) ->
        App.flow (App.handle E now s rq) = App.Done (errorController E e c)
        /\ exists t, App.trace (App.handle E now s rq)
                     = t ++ [(App.router r, c); (App.globalErrorHandler, c)]).
Proof.
  intros Hin. rewrite (router_step E now s rq r c Hin). split.
  - intros resp Hr. rewrite Hr. simpl. erewrite walk_done by reflexivity.
    split; [reflexivity | eexists; reflexivity].
  - intros e Hr. rewrite Hr. simpl.
    rewrite error_is_funneled with (e := e) (c := c);
      [|apply layer_of_bound|reflexivity].
    split; [reflexivity|]. eexists. simpl. now rewrite <- app_assoc.
Qed.

Lemma router_that_settles_owns_request_witness :
  App.flow (App.handle Site.env 0 Sample.fresh Site.home)
  = App.Done {| status := 200; payload := PView "overview" |}
  /\ App.flow (App.handle Site.env 0 Sample.fresh Site.account)
     = App.Done {| status := 401; payload := PText "You are not logged in!" |}.
Proof.
  assert (H1 : In (App.router viewRouter, Contract.after_guards (Site.parsed Site.home))
                  (App.trace (App.handle Site.env 0 Sample.fresh Site.home))).
  { vm_compute. auto 30. }
  assert (H2 : In (App.router viewRouter, Contract.after_guards (Site.parsed Site.account))
                  (App.trace (App.handle Site.env 0 Sample.fresh Site.account))).
  { vm_compute. auto 30. }
  split.
  - apply (proj1 (router_that_settles_owns_request _ _ _ _ _ _ H1)
             {| status := 200; payload := PView "overview" |}).
    reflexivity.
  - apply (proj2 (router_that_settles_owns_request _ _ _ _ _ _ H2)
             (AppError "You are not logged in!" 401)).
    reflexivity.
Defined.

(** ** The API routers and the limiter *)
Section Api.
Import App Contract Wiring.
Variables (E : Env) (now : Z) (s : RateLimit.Store) (rq : Request).

(** The mounts of the API routers are under the limiter's mount. *)
Lemma under_api r p :
  r <> viewRouter ->
  Express.use_match (mount_of r) p = true -> Express.use_match "/api" p = true.
Proof.
  intros Hr H. unfold Express.use_match in *.
  destruct r; try contradiction; simpl String.eqb in *; cbv iota in *;
    (destruct (Express.strip_prefix _ (Express.lower p)) as [rest|] eqn:Hs in H;
     [|discriminate];
     apply strip_prefix_Some in Hs; rewrite Hs; reflexivity).
Qed.

(** The run that reaches the limiter, and what the limiter makes of it. *)
Lemma limiter_step c :
  flow (walk E now rq (upto 0 E) (start s rq)) = Go None c ->
  Express.use_match "/api" (path rq) = true ->
  walk E now rq (upto 1 E) (start s rq)
  = {| store := fst (RateLimit.rateLimit limiter_options now s c);
       flow := flow_of (snd (RateLimit.rateLimit limiter_options now s c));
       trace := trace (walk E now rq (upto 0 E) (start s rq)) ++ [(limiter, c)] |}.
Proof.
  intros Hf Hm.
  replace (upto 1 E) with (upto 0 E ++ [Use "/api" limiter]) by cut_facts.
  rewrite walk_app, walk_cons, walk_nil. simpl layer_step. rewrite Hm.
  rewrite (invoke_go E now _ limiter c Hf eq_refl).
  rewrite walk_store by cut_facts. reflexivity.
Qed.

Lemma store_after_limiter :
  store (handle E now s rq) = store (walk E now rq (upto 1 E) (start s rq)).
Proof. rewrite (handle_cut 1). apply walk_store. cut_facts. Qed.

(** A request changes the limiter's store by one hit of its own client, or
    not at all. *)
Lemma store_after_request :
  (store (handle E now s rq) = s
   /\ forall c, ~ In (limiter, c) (trace (handle E now s rq)))
  \/ (exists c, In (limiter, c) (trace (handle E now s rq))
      /\ store (handle E now s rq)
         = RateLimit.increment (ip rq) (RateLimit.expire limiter_options now s)).
Proof.
  rewrite store_after_limiter.
  destruct (Express.use_match "/api" (path rq)) eqn:Hm.
  - destruct (flow (walk E now rq (upto 0 E) (start s rq))) as [[e|] c|x] eqn:Hf.
    + left. split.
      * replace (upto 1 E) with (upto 0 E ++ [Use "/api" limiter]) by cut_facts.
        rewrite walk_app, walk_cons, walk_nil. simpl layer_step. rewrite Hm.
        rewrite (invoke_err_skip E now _ limiter e c Hf eq_refl).
        apply walk_store. cut_facts.
      * intros c' Hin. apply limiter_entry in Hin. destruct Hin as [Hin _]. congruence.
    + right. exists c. split.
      * rewrite (handle_cut 1). apply walk_trace. rewrite (limiter_step c Hf Hm).
        simpl. apply in_or_app. right. now left.
      * rewrite (limiter_step c Hf Hm). cbn [store].
        assert (Hr : req c = rq) by (eapply walk_req; eauto).
        unfold RateLimit.rateLimit. rewrite Hr.
        now destruct (_ <? _)%nat.
    + left. split.
      * replace (upto 1 E) with (upto 0 E ++ [Use "/api" limiter]) by cut_facts.
        rewrite walk_app, walk_cons, walk_nil. simpl layer_step. rewrite Hm.
        rewrite (invoke_done E now _ limiter x Hf).
        apply walk_store. cut_facts.
      * intros c' Hin. apply limiter_entry in Hin. destruct Hin as [Hin _]. congruence.
  - left. split.
    + replace (upto 1 E) with (upto 0 E ++ [Use "/api" limiter]) by cut_facts.
      rewrite walk_app, walk_cons, walk_nil. simpl layer_step. rewrite Hm.
      apply walk_store. cut_facts.
    + intros c' Hin. apply limiter_entry in Hin. destruct Hin as [_ Hin]. congruence.
Qed.

(** An API router runs only behind the limiter, on a request that the
    limiter has counted and let through. *)
Lemma api_router_behind_limiter r c :
  In (router r, c) (trace (handle E now s rq)) ->
  r <> viewRouter ->
  (exists c0, In (limiter, c0) (trace (handle E now s rq)))
  /\ 1 <= RateLimit.totalHits (ip rq) (store (handle E now s rq)) <= 100.
Proof.
  intros Hin Hr. destruct (router_origin E now s rq r c Hin) as [Hf Hm].
  pose proof (under_api r (path rq) Hr Hm) as Hapi.
  assert (H1 : exists c1, flow (walk E now rq (upto 1 E) (start s rq)) = Go None c1).
  { revert Hf.
    replace (upto (layer_of r) E)
      with (upto 1 E ++ firstn (layer_of r - 1) (beyond 1 E))
      by (destruct r; try contradiction; cut_facts).
    rewrite walk_app. apply walk_go_back. }
  destruct H1 as [c1 H1].
  assert (H0 : exists c0, flow (walk E now rq (upto 0 E) (start s rq)) = Go None c0).
  { revert H1. replace (upto 1 E) with (upto 0 E ++ [Use "/api" limiter]) by cut_facts.
    rewrite walk_app. apply walk_go_back. }
  destruct H0 as [c0 H0].
  assert (Hr0 : req c0 = rq) by (eapply walk_req; eauto).
  rewrite store_after_limiter. rewrite (limiter_step c0 H0 Hapi) in H1 |- *.
  split.
  - exists c0. rewrite (handle_cut 1). apply walk_trace. rewrite (limiter_step c0 H0 Hapi).
    simpl. apply in_or_app. right. now left.
  - simpl in H1 |- *. unfold RateLimit.rateLimit in H1 |- *. rewrite Hr0 in H1 |- *.
    rewrite totalHits_increment in H1 |- *.
    destruct (Nat.ltb_spec (RateLimit.max limiter_options)
                (RateLimit.totalHits (ip rq) (RateLimit.expire limiter_options now s) + 1));
      simpl in H1; [discriminate|].
    simpl. rewrite totalHits_increment. simpl in H. lia.
Qed.

End Api.

(** X7.  Each router is mounted where [app.js] says and runs only on paths
    under its mount.  A router of the API (tours, users, reviews, bookings)
    runs only behind the limiter: the limiter has run on the request, and
    the store then counts between 1 and 100 hits for the client, this
    request included. *)
Theorem routers_behind_mount_and_limiter (E : Env) (now : Z) (s : RateLimit.Store)
    (rq : Request) (r : RouterName) (c : Ctx) :
  In (App.router r, c) (App.trace (App.handle E now s rq)) ->
  In (App.Use (Wiring.mount_of r) (App.router r)) (App.app E)
  /\ Express.use_match (Wiring.mount_of r) (path rq) = true
  /\ (r <> viewRouter ->
      (exists c0, In (App.limiter, c0) (App.trace (App.handle E now s rq)))
      /\ 1 <= RateLimit.totalHits (ip rq) (App.store (App.handle E now s rq)) <= 100).
Proof.
  intros Hin. split; [|split].
  - rewrite (router_layer E r). apply in_or_app. right. now left.
  - apply (router_origin E now s rq r c Hin).
  - now apply (api_router_behind_limiter E now s rq r c).
Qed.

Lemma routers_behind_mount_and_limiter_witness :
  Express.use_match "/api/v1/tours" (path Site.tours) = true
  /\ 1 <= RateLimit.totalHits (ip Site.tours)
            (App.store (App.handle Site.env 0 Sample.fresh Site.tours)) <= 100.
Proof.
  assert (H : In (App.router tourRouter, Contract.after_guards (Site.parsed Site.tours))
                 (App.trace (App.handle Site.env 0 Sample.fresh Site.tours))).
  { vm_compute. auto 30. }
  pose proof (routers_behind_mount_and_limiter _ _ _ _ _ _ H) as (_ & H2 & H3).
  split; [exact H2|]. apply H3. discriminate.
Defined.

(** X8.  A request is counted at most once, and only for its own client:
    when the limiter has not run on it, the store is left as it was; when
    it has, the store is the store it found, emptied if the window had
    elapsed, with one more hit for the client of the request.  Before the
    window ends, the count of every other client is unchanged. *)
Theorem request_counted_at_most_once (E : Env) (now : Z) (s : RateLimit.Store)
    (rq : Request) :
  ((forall c, ~ In (App.limiter, c) (App.trace (App.handle E now s rq))) ->
   App.store (App.handle E now s rq) = s)
  /\ (forall c,
        In (App.limiter, c) (App.trace (App.handle E now s rq)) ->
        App.store (App.handle E now s rq)
        = RateLimit.increment (ip rq) (RateLimit.expire Contract.limiter_options now s))
  /\ (forall key,
        key <> ip rq -> (now < RateLimit.resetTime s)%Z ->
        RateLimit.totalHits key (App.store (App.handle E now s rq))
        = RateLimit.totalHits key s).
Proof.
  destruct (store_after_request E now s rq) as [[Hs Hn]|(c & Hin & Hs)].
  - split; [|split].
    + intros _. exact Hs.
    + intros c Hin. now apply Hn in Hin.
    + intros key _ _. now rewrite Hs.
  - split; [|split].
    + intros Hn. now apply Hn in Hin.
    + intros _ _. exact Hs.
    + intros key Hk Hw. rewrite Hs, expire_within by exact Hw.
      apply totalHits_increment_other. congruence.
Qed.

Lemma request_counted_at_most_once_witness :
  App.store (App.handle Site.env 0 Sample.exhausted Site.home) = Sample.exhausted
  /\ App.store (App.handle Site.env 0 Sample.exhausted Site.tours)
     = RateLimit.increment (ip Site.tours)
         (RateLimit.expire Contract.limiter_options 0 Sample.exhausted)
  /\ RateLimit.totalHits "203.0.113.7"
       (App.store (App.handle Site.env 0 Sample.exhausted Site.tours))
     = 100.
Proof.
  pose proof (request_counted_at_most_once Site.env 0%Z Sample.exhausted Site.home)
    as (H1 & _).
  pose proof (request_counted_at_most_once Site.env 0%Z Sample.exhausted Site.tours)
    as (_ & H2 & H3).
  split; [|split].
  - apply H1. intros c Hin. vm_compute in Hin. intuition discriminate.
  - apply (H2 (Site.after_helmet Site.tours)). vm_compute. auto 30.
  - rewrite H3; [reflexivity | discriminate | reflexivity].
Defined.

(** ** What the routers are given, continued *)
Section Given.
Import App Contract Wiring.
Variables (E : Env) (now : Z) (s : RateLimit.Store) (rq : Request).

Ltac unfold_call :=
  repeat (simpl in *;
          unfold ServeStatic.serve, Cors.cors, RateLimit.rateLimit, BodyParser.raw,
            BodyParser.json, BodyParser.urlencoded, BodyParser.parser, settle,
            CookieParser.cookieParser, MongoSanitize.mongoSanitize, XssClean.xss,
            Hpp.hpp in *;
          try case_match; simplify_eq).

(** A router is given what the sanitisers, the guard and the annotation
    stage made of the context that left cookie-parser. *)
Lemma router_given r c :
  In (router r, c) (trace (handle E now s rq)) ->
  exists c1, flow (walk E now rq (upto 5 E) (start s rq)) = Go None c1
             /\ c = after_guards c1.
Proof.
  intros Hin. rewrite (handle_cut 5) in Hin.
  assert (Ht : forall r' c', ~ In (router r', c')
                               (trace (walk E now rq (upto 5 E) (start s rq)))).
  { intros r' c' Hc. apply trace_origin in Hc. destruct Hc as [[]|Hc]. revert Hc. cut_facts. }
  destruct (walk E now rq (upto 5 E) (start s rq)) as [st [[e|] c1|x] t] eqn:Hr;
    simpl in Ht.
  - rewrite error_is_funneled with (e := e) (c := c1) in Hin by (auto; lia).
    simpl in Hin. apply in_app_or in Hin. destruct Hin as [Hin|[Hin|[]]];
      [now apply Ht in Hin | discriminate Hin].
  - exists c1. split; [reflexivity|].
    replace (beyond 5 E)
      with ([Use "/" mongoSanitize; Use "/" xss; Use "/" (hpp hpp_whitelist);
             Use "/" compression; Use "/" testMiddleware] ++ beyond 10 E) in Hin
      by cut_facts.
    rewrite walk_app in Hin. revert Hin.
    do 5 (step idtac). rewrite walk_nil. intros Hin.
    apply routers_share_context in Hin; [exact Hin|].
    intros r' c' Hc. repeat (apply in_app_or in Hc; destruct Hc as [Hc|[Hc|[]]];
                             [|discriminate Hc]).
    now apply Ht in Hc.
  - erewrite walk_done in Hin by reflexivity. now apply Ht in Hin.
Qed.

(** Before cookie-parser no function sets [req.cookies]. *)
Lemma cookies_unset stack :
  forallb is_before_cookies (registered stack) = true ->
  (forall h c, In (h, c) (trace (walk E now rq stack (start s rq))) -> cookies c = None)
  /\ (forall e c, flow (walk E now rq stack (start s rq)) = Go e c -> cookies c = None).
Proof.
  intros Hall. rewrite forallb_forall in Hall.
  apply (walk_inv E now rq
           (fun r => (forall h c, In (h, c) (trace r) -> cookies c = None)
                     /\ (forall e c, flow r = Go e c -> cookies c = None))).
  - intros h Hh r [I1 I2]. specialize (Hall h Hh).
    destruct (invoke_cases E now r h)
      as [Heq | [(c0 & Hf0 & _ & Heq) | (e0 & c0 & _ & Hg & Heq)]]; rewrite Heq.
    + auto.
    + pose proof (I2 _ _ Hf0) as Hc0. simpl. split.
      * intros h' c' Hin. apply in_app_or in Hin. destruct Hin as [Hin|[Hin|[]]]; [eauto|].
        now injection Hin as _ <-.
      * intros e c Hf.
        destruct (call E now h (store r) c0) as [s' st] eqn:Hc. simpl in Hf.
        destruct h; try discriminate Hall; unfold_call; assumption.
    + subst h. discriminate Hall.
  - split; [intros h c []|]. intros e c Hf. simpl in Hf. now injection Hf as _ <-.
Qed.

Lemma cookies_parsed c1 :
  flow (walk E now rq (upto 5 E) (start s rq)) = Go None c1 ->
  cookies c1 = Some (cookies_of E rq).
Proof.
  replace (upto 5 E) with (upto 4 E ++ [Use "/" cookieParser]) by cut_facts.
  rewrite walk_app, walk_cons, walk_nil. simpl layer_step.
  destruct (cookies_unset (upto 4 E) ltac:(cut_facts)) as [_ Hn].
  pose proof (walk_req E now rq (upto 4 E) s) as Hreq.
  destruct (flow (walk E now rq (upto 4 E) (start s rq))) as [[e|] c0|x] eqn:Hf.
  - rewrite (invoke_err_skip E now _ cookieParser e c0 Hf eq_refl), Hf. discriminate.
  - rewrite (invoke_go E now _ cookieParser c0 Hf eq_refl). simpl.
    unfold CookieParser.cookieParser. rewrite (Hn None c0 eq_refl). simpl.
    intros H. injection H as <-. simpl. unfold cookies_of.
    now rewrite (Hreq None c0 eq_refl).
  - rewrite (invoke_done E now _ cookieParser x Hf), Hf. discriminate.
Qed.

Lemma after_guards_cookies c : cookies (after_guards c) = cookies c.
Proof. unfold after_guards, Hpp.guard. simpl. repeat case_match; reflexivity. Qed.

End Given.

(** X9.  Cookies are parsed for the routers and not for the webhook: every
    router is given [req.cookies] as cookie-parser made them from the
    Cookie header of the request (none when there is no such header), and
    the webhook handler, registered before cookie-parser, is given no
    cookies at all. *)
Theorem cookies_parsed_for_routers_only (E : Env) (now : Z) (s : RateLimit.Store)
    (rq : Request) :
  (forall r c,
      In (App.router r, c) (App.trace (App.handle E now s rq)) ->
      cookies c = Some (Wiring.cookies_of E rq))
  /\ (forall c,
        In (App.webhookCheckout, c) (App.trace (App.handle E now s rq)) ->
        cookies c = None).
Proof.
  split.
  - intros r c Hin. destruct (router_given E now s rq r c Hin) as (c1 & Hf & ->).
    rewrite after_guards_cookies. now apply (cookies_parsed E now s rq).
  - intros c Hin. rewrite (handle_cut 4) in Hin.
    apply trace_origin in Hin. destruct Hin as [Hin|Hin]; [|revert Hin; cut_facts].
    destruct (cookies_unset E now s rq (Contract.upto 4 E) ltac:(cut_facts)) as [H _].
    eapply H; eauto.
Qed.

Lemma cookies_parsed_for_routers_only_witness :
  cookies (Contract.after_guards (Site.parsed Site.home)) = Some [("jwt", "token")]
  /\ cookies (Sample.with_body Sample.webhook_json (BBuffer Sample.event) true) = None.
Proof.
  split.
  - apply (proj1 (cookies_parsed_for_routers_only Site.env 0%Z Sample.fresh Site.home)
             viewRouter).
    vm_compute. auto 30.
  - apply (proj2 (cookies_parsed_for_routers_only Sample.env 0%Z Sample.fresh
                    Sample.webhook_json)).
    vm_compute. auto 30.
Defined.

(** ** Response headers *)
Section Headers.
Import App Contract Wiring.
Variables (E : Env) (now : Z) (s : RateLimit.Store) (rq : Request).

Ltac unfold_call :=
  repeat (simpl in *;
          unfold ServeStatic.serve, Cors.cors, RateLimit.rateLimit, BodyParser.raw,
            BodyParser.json, BodyParser.urlencoded, BodyParser.parser, settle,
            CookieParser.cookieParser, MongoSanitize.mongoSanitize, XssClean.xss,
            Hpp.hpp in *;
          try case_match; simplify_eq).






End Headers.



(** ** What the sanitisers leave for the routers *)

(** X11.  Whatever the client sent, no router is given a ['<'] in [req.query],
    [req.params] or [req.body]: not in a string, not in a key, at no depth. *)
Theorem routers_see_no_markup (E : Env) (now : Z) (s : RateLimit.Store) (rq : Request)
    (r : RouterName) (c : Ctx) :
  In (App.router r, c) (App.trace (App.handle E now s rq)) ->
  Wiring.has_markup (cquery c) = false
  /\ Wiring.has_markup (params c) = false
  /\ Wiring.body_has_markup (body c) = false.
Proof.
  intros Hin. apply router_entry in Hin.
  destruct Hin as (c1 & (_ & _ & _ & Hq & Hb) & ->).
  rewrite after_guards_query, after_guards_params by exact Hq.
  split; [|split].
  - apply guarded_no_markup, cleaned_no_markup.
  - apply cleaned_no_markup.
  - apply (after_guards_body Wiring.has_markup c1 Hb).
    + apply guarded_no_markup.
    + intros v. apply cleaned_no_markup.
    + intros bytes. apply reparse_no_markup.
Qed.

Lemma routers_see_no_markup_witness :
  Wiring.has_markup (cquery (Contract.after_guards (Site.parsed Site.tours_markup))) = false.
Proof.
  apply (routers_see_no_markup Site.env 0%Z Sample.fresh Site.tours_markup tourRouter).
  vm_compute. auto 30.
Defined.

(** X12.  No router is given a key that express-mongo-sanitize deletes, one
    that starts with ['$'] or has a ['.'] in it, in [req.query], [req.params]
    or [req.body]: the two stages registered after it bring none back. *)
Theorem routers_see_no_flagged_key (E : Env) (now : Z) (s : RateLimit.Store)
    (rq : Request) (r : RouterName) (c : Ctx) :
  In (App.router r, c) (App.trace (App.handle E now s rq)) ->
  Wiring.has_flagged_key (cquery c) = false
  /\ Wiring.has_flagged_key (params c) = false
  /\ Wiring.body_has_flagged_key (body c) = false.
Proof.
  intros Hin. apply router_entry in Hin.
  destruct Hin as (c1 & (_ & _ & _ & Hq & Hb) & ->).
  rewrite after_guards_query, after_guards_params by exact Hq.
  split; [|split].
  - apply guarded_no_flagged_key, cleaned_no_flagged_key, sanitize_no_flagged_key.
  - apply cleaned_no_flagged_key, sanitize_no_flagged_key.
  - apply (after_guards_body Wiring.has_flagged_key c1 Hb).
    + apply guarded_no_flagged_key.
    + intros v. apply cleaned_no_flagged_key, sanitize_no_flagged_key.
    + apply buffer_json_no_flagged_key.
Qed.

Lemma routers_see_no_flagged_key_witness :
  Wiring.has_flagged_key (cquery (Contract.after_guards (Site.parsed Site.tours_markup)))
  = false.
Proof.
  apply (routers_see_no_flagged_key Site.env 0%Z Sample.fresh Site.tours_markup tourRouter).
  vm_compute. auto 30.
Defined.

(** X13.  A query that has nothing for the three stages to act on, no key
    that starts with ['$'] or has a ['.'], no ['<'], no parameter repeated
    outside the allow-list, reaches the routers as it was parsed.  The
    query is what Express's query parser builds: an object of strings,
    arrays and objects, the names of an object all different. *)
Theorem benign_query_reaches_routers_unchanged (E : Env) (now : Z)
    (s : RateLimit.Store) (rq : Request) (r : RouterName) (c : Ctx) :
  In (App.router r, c) (App.trace (App.handle E now s rq)) ->
  Wiring.parsed_query (query rq) = true ->
  Wiring.has_flagged_key (query rq) = false ->
  Wiring.has_markup (query rq) = false ->
  Wiring.unrepeated App.hpp_whitelist (query rq) = true ->
  cquery c = query rq.
Proof.
  intros Hin Hp Hk Hm Hu. apply router_entry in Hin.
  destruct Hin as (c1 & (_ & Hc & _ & Hq & _) & ->).
  rewrite after_guards_query by exact Hq. rewrite Hc.
  now rewrite sanitize_same, cleaned_same, guarded_same.
Qed.

Lemma benign_query_reaches_routers_unchanged_witness :
  cquery (Contract.after_guards (Site.parsed Site.tours)) = query Site.tours.
Proof.
  apply (benign_query_reaches_routers_unchanged Site.env 0%Z Sample.fresh Site.tours
           tourRouter);
    [vm_compute; auto 30 | reflexivity | reflexivity | reflexivity | reflexivity].
Defined.
